(** * Insider-selling signal detector: a shallow embedding

    This development embeds the signal-detection engine of
    [backend/analyzer.py] ([SECFilingAnalyzer.detect_insider_selling_signal]
    and [SECFilingAnalyzer._calculate_confidence]) and settles the
    properties stated about it.

    Modelling conventions.
    - Python [int] is [Z].
    - Python [float] is idealised as an exact rational ([Q]): rounding,
      overflow, infinities and NaN are outside the model.  Equality of
      floats is therefore [Qeq] ([==]); a true division by zero raises
      [ZeroDivisionError], as it does in Python for both [int] and [float].
      In particular the [OverflowError] that the conversion of an [int] of
      magnitude 2^1024 or more to [float] raises ([t.shares_sold * weight])
      is not modelled: what is said of a call is said under the hypothesis
      that its metrics phase completes, [metrics t0 rest = ok m].
    - Python [str] is [string] (a byte string); [str.lower] acts on the
      ASCII letters, which is all that the ASCII-only table keys can see.
    - Exceptions are values of [exn] threaded through a small error monad.
    - [set(...)] is a [gset string].
    - [datetime.fromisoformat] is modelled on the date-only form
      [YYYY-MM-DD] used by Form 4 filings; a datetime at midnight is
      represented by its proleptic Gregorian ordinal, so that
      [(a - b).days] is a difference of ordinals.
    - [datetime.now().isoformat()] is an explicit argument [now].
    - For [parse_form4_transactions] the BeautifulSoup document is an input:
      each transaction element comes with the outcome of the lookups and
      conversions the loop performs on it.
    - For [generate_zk_proof] the conversion of the filing hash to a field
      element is modelled from the parsed integer on; bytes are
      [Byte.byte], [Web3.keccak] is a parameter. *)

From Stdlib Require Import ZArith QArith Qminmax Qabs String Ascii List Bool Lia Lqa.
From stdpp Require Import base gmap strings.
Import ListNotations.

Local Open Scope string_scope.
Local Open Scope Z_scope.

(** ** Exceptions *)

Inductive exn : Type :=
| ZeroDivisionError
| ValueError.

Definition result (A : Type) : Type := exn + A.

Definition ok {A : Type} (x : A) : result A := inr x.
Definition raise {A : Type} (e : exn) : result A := inl e.

Definition bind {A B : Type} (m : result A) (k : A -> result B) : result B :=
  match m with
  | inl e => inl e
  | inr x => k x
  end.

Notation "'let*' x ':=' m 'in' k" := (bind m (fun x => k))
  (at level 10, x pattern, m at level 200, k at level 200).

Fixpoint mapM {A B : Type} (f : A -> result B) (l : list A) : result (list B) :=
  match l with
  | [] => ok []
  | x :: l' =>
      let* y := f x in
      let* ys := mapM f l' in
      ok (y :: ys)
  end.

(** ** Python numeric primitives *)

Module Py.

(** [a < b] on floats, as a boolean. *)
Definition ltb (a b : Q) : bool := negb (Qle_bool b a).

(** [max(a, b)]: the first argument unless the second is strictly larger. *)
Definition max (a b : Q) : Q := if ltb a b then b else a.

(** [min(a, b)]: the first argument unless the second is strictly smaller. *)
Definition min (a b : Q) : Q := if ltb b a then b else a.

(** [a / b] on floats. *)
Definition truediv (a b : Q) : result Q :=
  if Qeq_bool b 0 then raise ZeroDivisionError else ok (a / b)%Q.

(** [a / b] on ints (true division, a float). *)
Definition int_truediv (a b : Z) : result Q :=
  if Z.eqb b 0 then raise ZeroDivisionError else ok (inject_Z a / inject_Z b)%Q.

(** [round(x, 2)]: nearest multiple of 1/100, ties to the even one. *)
Definition round2 (x : Q) : Q :=
  let s := (x * 100)%Q in
  let a := Qnum s in
  let b := Zpos (Qden s) in
  let fl := a / b in
  let r2 := 2 * (a mod b) in
  let n := if r2 <? b then fl
           else if b <? r2 then fl + 1
           else if Z.even fl then fl else fl + 1 in
  (inject_Z n / 100)%Q.

(** [max(l)] and [min(l)] on a list of ordinals; the list is non-empty
    wherever the source calls them, the empty case raises [ValueError]. *)
Definition max_list (l : list Z) : result Z :=
  match l with
  | [] => raise ValueError
  | d :: ds => ok (fold_left Z.max ds d)
  end.

Definition min_list (l : list Z) : result Z :=
  match l with
  | [] => raise ValueError
  | d :: ds => ok (fold_left Z.min ds d)
  end.

(** [c.lower()] on one byte. *)
Definition lower_ascii (c : ascii) : ascii :=
  let n := N_of_ascii c in
  if (65 <=? n)%N && (n <=? 90)%N then ascii_of_N (n + 32) else c.

(** [s.lower()]. *)
Fixpoint lower (s : string) : string :=
  match s with
  | EmptyString => EmptyString
  | String c s' => String (lower_ascii c) (lower s')
  end.

(** [needle in hay] on strings. *)
Fixpoint contains (needle hay : string) : bool :=
  String.prefix needle hay ||
  match hay with
  | EmptyString => false
  | String _ hay' => contains needle hay'
  end.

End Py.

(** ** Data model *)

Record InsiderTransaction : Type := mkInsiderTransaction {
  insider_name : string;
  title : string;
  transaction_date : string;
  shares_sold : Z;
  shares_bought : Z;
  shares_owned_after : Z;
  transaction_type : string
}.

Record Details : Type := mkDetails {
  d_total_shares_sold : Z;
  d_total_shares_bought : Z;
  d_percentage_sold : Q;
  d_effective_percentage : Q;
  d_threshold : Q;
  d_num_transactions : Z;
  d_num_unique_insiders : Z;
  d_insiders : gset string;
  d_roles : gset string;
  d_role_multiplier : Q;
  d_time_clustered : option bool;
  d_date_range_days : Z
}.

Record InsiderSignal : Type := mkInsiderSignal {
  signal_type : string;
  company_symbol : string;
  filing_type : string;
  confidence : Q;
  threshold_exceeded : bool;
  threshold_value : Q;
  details : Details;
  filing_url : string;
  detected_at : string
}.

(** ** The role-weight table *)

Definition ROLE_WEIGHTS : list (string * Q) :=
  [ ("ceo", 1.5%Q);
    ("chief executive officer", 1.5%Q);
    ("cfo", 1.4%Q);
    ("chief financial officer", 1.4%Q);
    ("coo", 1.3%Q);
    ("chief operating officer", 1.3%Q);
    ("president", 1.3%Q);
    ("cto", 1.2%Q);
    ("chief technology officer", 1.2%Q);
    ("director", 1.0%Q);
    ("officer", 0.9%Q);
    ("insider", 0.8%Q);
    ("10% owner", 0.7%Q) ].

(** The inner loop of the detector (lines 208-210), over any table:
    starting from [weight], fold [max] over the keys contained in the
    lowered title, in the table's order. *)
Definition weight_loop (table : list (string * Q)) (title_lower : string) (weight : Q) : Q :=
  fold_left
    (fun weight (rw : string * Q) =>
       let (role, w) := rw in
       if Py.contains role title_lower then Py.max weight w else weight)
    table weight.

(** The weight the detector resolves for one title (lines 206-210). *)
Definition role_weight (title : string) : Q :=
  let title_lower := Py.lower title in
  weight_loop ROLE_WEIGHTS title_lower 1.0%Q.

(** ** Dates *)

Module Datetime.

Definition digit (c : ascii) : option Z :=
  let n := N_of_ascii c in
  if (48 <=? n)%N && (n <=? 57)%N then Some (Z.of_N n - 48) else None.

(** A run of decimal digits, most significant first. *)
Fixpoint number (acc : Z) (cs : list ascii) : option Z :=
  match cs with
  | [] => Some acc
  | c :: cs' =>
      match digit c with
      | Some d => number (10 * acc + d) cs'
      | None => None
      end
  end.

Definition is_leap (y : Z) : bool :=
  (y mod 4 =? 0) && (negb (y mod 100 =? 0) || (y mod 400 =? 0)).

Definition days_in_month (y m : Z) : Z :=
  if m =? 2 then (if is_leap y then 29 else 28)
  else if (m =? 4) || (m =? 6) || (m =? 9) || (m =? 11) then 30
  else 31.

Definition days_before_year (y : Z) : Z :=
  let y' := y - 1 in
  y' * 365 + y' / 4 - y' / 100 + y' / 400.

Definition days_before_month (y m : Z) : Z :=
  nth (Z.to_nat m) [0; 0; 31; 59; 90; 120; 151; 181; 212; 243; 273; 304; 334] 0
  + (if (2 <? m) && is_leap y then 1 else 0).

(** The proleptic Gregorian ordinal of a date (1 is 0001-01-01). *)
Definition ymd2ord (y m d : Z) : Z :=
  days_before_year y + days_before_month y m + d.

(** [datetime.fromisoformat(s)] on the form [YYYY-MM-DD], as the ordinal
    of the day; anything else is a [ValueError]. *)
Definition fromisoformat (s : string) : result Z :=
  match list_ascii_of_string s with
  | [y1; y2; y3; y4; s1; m1; m2; s2; d1; d2] =>
      match number 0 [y1; y2; y3; y4], number 0 [m1; m2], number 0 [d1; d2] with
      | Some y, Some m, Some d =>
          if Ascii.eqb s1 "-" && Ascii.eqb s2 "-"
             && (1 <=? y) && (1 <=? m) && (m <=? 12)
             && (1 <=? d) && (d <=? days_in_month y m)
          then ok (ymd2ord y m d)
          else raise ValueError
      | _, _, _ => raise ValueError
      end
  | _ => raise ValueError
  end.

End Datetime.

(** ** The detector *)

(** The locals of the detector up to the threshold test. *)
Record Metrics : Type := mkMetrics {
  total_sold : Z;
  total_bought : Z;
  weighted_sold : Q;
  role_multiplier : Q;
  recent_ownership : Z;
  percentage_sold : Q;
  effective_percentage : Q
}.

(** The four accumulators of the loop over the transactions
    (lines 199-215). *)
Record Totals : Type := mkTotals {
  acc_total_sold : Z;
  acc_total_bought : Z;
  acc_weighted_sold : Q;
  acc_role_multiplier : Q
}.

Definition accumulate_step (acc : Totals) (t : InsiderTransaction) : Totals :=
  let weight := role_weight (title t) in
  {| acc_total_sold := acc_total_sold acc + shares_sold t;
     acc_total_bought := acc_total_bought acc + shares_bought t;
     acc_weighted_sold := (acc_weighted_sold acc + inject_Z (shares_sold t) * weight)%Q;
     acc_role_multiplier := Py.max (acc_role_multiplier acc) weight |}.

Definition accumulate (transactions : list InsiderTransaction) : Totals :=
  fold_left accumulate_step transactions
    {| acc_total_sold := 0; acc_total_bought := 0;
       acc_weighted_sold := 0%Q; acc_role_multiplier := 1.0%Q |}.

(** The body of the detector from the accumulation loop to
    [effective_percentage] (lines 198-228), on the non-empty list
    [t0 :: rest]. *)
Definition metrics (t0 : InsiderTransaction) (rest : list InsiderTransaction) : result Metrics :=
  let transactions := t0 :: rest in
  let acc := accumulate transactions in
  let total_sold := acc_total_sold acc in
  let role_multiplier := acc_role_multiplier acc in
  let recent_ownership := shares_owned_after (List.last transactions t0) in
  let* percentage_sold :=
    (if 0 <? recent_ownership then
       let* ratio := Py.int_truediv total_sold (recent_ownership + total_sold) in
       ok (ratio * 100)%Q
     else ok 0%Q) in
  let effective_percentage := (percentage_sold * role_multiplier)%Q in
  ok {| total_sold := total_sold;
        total_bought := acc_total_bought acc;
        weighted_sold := acc_weighted_sold acc;
        role_multiplier := role_multiplier;
        recent_ownership := recent_ownership;
        percentage_sold := percentage_sold;
        effective_percentage := effective_percentage |}.

(** The time-clustering test (lines 239-243): [is_clustered], and
    [date_range_days] where the source binds it. *)
Definition clustering (dates : list Z) : result (bool * option Z) :=
  if 1 <? Z.of_nat (length dates) then
    let* latest := Py.max_list dates in
    let* earliest := Py.min_list dates in
    let date_range_days := latest - earliest in
    ok (date_range_days <=? 30, Some date_range_days)
  else ok (false, None).

(** The four factors of the confidence score (lines 301-317). *)
Record Factors : Type := mkFactors {
  threshold_factor : Q;
  insider_factor : Q;
  cluster_factor : Q;
  role_factor : Q
}.

Definition confidence_factors (percentage_sold threshold : Q) (num_insiders : Z)
    (is_clustered : bool) (role_multiplier : Q) : result Factors :=
  let* ratio := Py.truediv percentage_sold threshold in
  let threshold_factor := Py.min (ratio - 1.0)%Q 1.0%Q in
  let insider_factor := Py.min (inject_Z num_insiders / 3.0)%Q 1.0%Q in
  let cluster_factor := if is_clustered then 1.0%Q else 0.5%Q in
  let role_factor := Py.min ((role_multiplier - 0.7) / 0.8)%Q 1.0%Q in
  ok {| threshold_factor := threshold_factor;
        insider_factor := insider_factor;
        cluster_factor := cluster_factor;
        role_factor := role_factor |}.

(** The weighted combination (lines 320-325). *)
Definition weighted_combination (f : Factors) : Q :=
  (threshold_factor f * 0.40 +
   insider_factor f * 0.30 +
   cluster_factor f * 0.15 +
   role_factor f * 0.15)%Q.

(** [SECFilingAnalyzer._calculate_confidence] (lines 281-328). *)
Definition _calculate_confidence (percentage_sold threshold : Q) (num_insiders : Z)
    (is_clustered : bool) (role_multiplier : Q) : result Q :=
  let* f := confidence_factors percentage_sold threshold num_insiders
              is_clustered role_multiplier in
  let confidence := weighted_combination f in
  ok (Py.min confidence 0.99%Q).

(** [len(set(t.insider_name for t in transactions))]. *)
Definition unique_insiders (transactions : list InsiderTransaction) : Z :=
  Z.of_nat (size (list_to_set (map insider_name transactions) : gset string)).

(** The record returned when the signal fires (lines 254-277), from the
    locals in scope. *)
Definition signal_of (now : string) (transactions : list InsiderTransaction)
    (threshold : Q) (m : Metrics) (dates : list Z) (is_clustered : bool)
    (date_range_days : option Z) (confidence : Q) : InsiderSignal :=
  {| signal_type := "INSIDER_SELLING";
     company_symbol := "";
     filing_type := "Form 4";
     confidence := confidence;
     threshold_exceeded := true;
     threshold_value := percentage_sold m;
     details :=
       {| d_total_shares_sold := total_sold m;
          d_total_shares_bought := total_bought m;
          d_percentage_sold := Py.round2 (percentage_sold m);
          d_effective_percentage := Py.round2 (effective_percentage m);
          d_threshold := threshold;
          d_num_transactions := Z.of_nat (length transactions);
          d_num_unique_insiders := unique_insiders transactions;
          d_insiders := list_to_set (map insider_name transactions);
          d_roles := list_to_set (map title transactions);
          d_role_multiplier := Py.round2 (role_multiplier m);
          d_time_clustered :=
            if 1 <? Z.of_nat (length dates) then Some is_clustered else None;
          d_date_range_days :=
            if 1 <? Z.of_nat (length dates) then default 0 date_range_days else 0 |};
     filing_url := "";
     detected_at := now |}.

(** [SECFilingAnalyzer.detect_insider_selling_signal] (lines 162-279). *)
Definition detect_insider_selling_signal (now : string)
    (transactions : list InsiderTransaction) (threshold : Q)
    : result (option InsiderSignal) :=
  match transactions with
  | [] => ok None
  | t0 :: rest =>
      let* m := metrics t0 rest in
      let threshold_exceeded := Qle_bool threshold (effective_percentage m) in
      if threshold_exceeded then
        let* dates := mapM Datetime.fromisoformat (map transaction_date transactions) in
        let* (is_clustered, date_range_days) := clustering dates in
        let* confidence :=
          _calculate_confidence (percentage_sold m) threshold
            (unique_insiders transactions) is_clustered (role_multiplier m) in
        ok (Some (signal_of now transactions threshold m dates is_clustered
                    date_range_days confidence))
      else ok None
  end.

(** ** Scenarios of the test suite *)

Definition ceo_sale : InsiderTransaction :=
  {| insider_name := "John Doe"; title := "Chief Executive Officer";
     transaction_date := "2025-01-15"; shares_sold := 150000; shares_bought := 0;
     shares_owned_after := 200000; transaction_type := "Sale" |}.

Definition cfo_sale : InsiderTransaction :=
  {| insider_name := "Jane Smith"; title := "Chief Financial Officer";
     transaction_date := "2025-01-16"; shares_sold := 50000; shares_bought := 0;
     shares_owned_after := 100000; transaction_type := "Sale" |}.

Definition sample_transactions : list InsiderTransaction := [ceo_sale; cfo_sale].

(** ** The role-weight table as the specification words it *)

(** The table entries whose key occurs in the lowered title, and their weights. *)
Definition matching_entries (title : string) : list (string * Q) :=
  List.filter (fun rw : string * Q => Py.contains (fst rw) (Py.lower title)) ROLE_WEIGHTS.

Definition matching_weights (title : string) : list Q :=
  map snd (matching_entries title).

(** [weight_for]: the maximum over all matching keys, and 1.0 only when no
    key matches. *)
Definition weight_for (title : string) : Q :=
  match matching_weights title with
  | [] => 1.0%Q
  | w :: ws => fold_left Qmax ws w
  end.

(** ** The aggregate metrics as the specification words them *)

Definition sum_Z (l : list Z) : Z := fold_right Z.add 0 l.

(** [total_sold / (recent_ownership + total_sold) * 100] when the last
    record's [shares_owned_after] is positive, and 0 otherwise. *)
Definition unweighted_percentage (transactions : list InsiderTransaction) : Q :=
  match transactions with
  | [] => 0%Q
  | t0 :: _ =>
      let total := sum_Z (map shares_sold transactions) in
      let owned := shares_owned_after (List.last transactions t0) in
      if 0 <? owned then (inject_Z total / inject_Z (owned + total) * 100)%Q else 0%Q
  end.

(** The data model's invariant on the share counts of a record. *)
Definition wf_transaction (t : InsiderTransaction) : Prop :=
  0 <= shares_sold t /\ 0 <= shares_bought t /\ 0 <= shares_owned_after t.

(** [span] is the number of days between the latest and the earliest of
    [dates]. *)
Definition is_span (dates : list Z) (span : Z) : Prop :=
  exists latest earliest,
    In latest dates /\ In earliest dates /\
    (forall d, In d dates -> earliest <= d <= latest) /\
    span = latest - earliest.

(** ** Further scenarios *)

(** A single sale by one insider with the given role title. *)
Definition sale (role_title : string) (sold owned_after : Z) : InsiderTransaction :=
  {| insider_name := "Insider"; title := role_title;
     transaction_date := "2025-01-15"; shares_sold := sold; shares_bought := 0;
     shares_owned_after := owned_after; transaction_type := "Sale" |}.

(** Two sales by two officers on the given days. *)
Definition sale_a (date : string) : InsiderTransaction :=
  {| insider_name := "Person A"; title := "CFO";
     transaction_date := date; shares_sold := 50000; shares_bought := 0;
     shares_owned_after := 100000; transaction_type := "Sale" |}.

Definition sale_b (date : string) : InsiderTransaction :=
  {| insider_name := "Person B"; title := "COO";
     transaction_date := date; shares_sold := 50000; shares_bought := 0;
     shares_owned_after := 100000; transaction_type := "Sale" |}.

Definition two_sales (date1 date2 : string) : list InsiderTransaction :=
  [sale_a date1; sale_b date2].

(** Five chief executives each selling 90,000 shares and keeping 10,000. *)
Definition extreme_transactions : list InsiderTransaction :=
  map (fun name =>
         {| insider_name := name; title := "Chief Executive Officer";
            transaction_date := "2025-01-15"; shares_sold := 90000; shares_bought := 0;
            shares_owned_after := 10000; transaction_type := "Sale" |})
      ["Exec 0"; "Exec 1"; "Exec 2"; "Exec 3"; "Exec 4"].

(** [t] with its role title replaced. *)
Definition with_title (t : InsiderTransaction) (role_title : string) : InsiderTransaction :=
  {| insider_name := insider_name t; title := role_title;
     transaction_date := transaction_date t; shares_sold := shares_sold t;
     shares_bought := shares_bought t; shares_owned_after := shares_owned_after t;
     transaction_type := transaction_type t |}.

(** [clamp(x, lo, hi)] as the specification uses it. *)
Definition clamp (x lo hi : Q) : Q := Qmax lo (Qmin x hi).

(** ** Form 4 parsing

    [SECFilingAnalyzer.parse_form4_transactions] (lines 115-160).  The
    BeautifulSoup document is an input: for each [nonDerivativeTransaction]
    element the four lookups of lines 136-139 are [None] when the element
    is absent, and otherwise carry the outcome of the value expression the
    loop body evaluates on it ([.find('value').text.strip()], wrapped in
    [int(...)] for the two share counts): [None] when that expression
    raises, the value otherwise.  The reporting owner's name and title are
    the stripped texts of lines 131-132, [None] when the element is absent. *)

Record Form4Transaction : Type := mkForm4Transaction {
  transactionDate : option (option string);
  transactionCode : option (option string);
  transactionShares : option (option Z);
  sharesOwnedFollowingTransaction : option (option Z)
}.

(** [code in ['S', 'F']]. *)
Definition is_sale_code (code : string) : bool :=
  String.eqb code "S" || String.eqb code "F".

(** The record built at lines 146-154. *)
Definition build_transaction (reportingOwnerName reportingOwnerTitle : option string)
    (date code : string) (shares owned : Z) : InsiderTransaction :=
  let is_sale := is_sale_code code in
  {| insider_name := default "Unknown" reportingOwnerName;
     title := default "Unknown" reportingOwnerTitle;
     transaction_date := date;
     shares_sold := if is_sale then shares else 0;
     shares_bought := if negb is_sale then shares else 0;
     shares_owned_after := owned;
     transaction_type := if is_sale then "Sale" else "Purchase" |}.

(** The loop of lines 135-155 inside its [try]: a transaction with an absent
    element is skipped; a raising value expression ends the loop, and the
    [except] clause lets the function return what was appended so far. *)
Fixpoint parse_loop (reportingOwnerName reportingOwnerTitle : option string)
    (elements : list Form4Transaction) (transactions : list InsiderTransaction)
    : list InsiderTransaction :=
  match elements with
  | [] => transactions
  | e :: elements' =>
      match transactionDate e, transactionCode e, transactionShares e,
            sharesOwnedFollowingTransaction e with
      | Some trans_date, Some trans_code, Some shares, Some shares_owned =>
          match trans_code, trans_date, shares, shares_owned with
          | Some code, Some date, Some n, Some owned =>
              parse_loop reportingOwnerName reportingOwnerTitle elements'
                (app transactions
                 [build_transaction reportingOwnerName reportingOwnerTitle
                    date code n owned])
          | _, _, _, _ => transactions
          end
      | _, _, _, _ =>
          parse_loop reportingOwnerName reportingOwnerTitle elements' transactions
      end
  end.

Definition parse_form4_transactions (reportingOwnerName reportingOwnerTitle : option string)
    (elements : list Form4Transaction) : list InsiderTransaction :=
  parse_loop reportingOwnerName reportingOwnerTitle elements [].

(** An element all of whose four lookups are present. *)
Definition complete (e : Form4Transaction) : bool :=
  match transactionDate e, transactionCode e, transactionShares e,
        sharesOwnedFollowingTransaction e with
  | Some _, Some _, Some _, Some _ => true
  | _, _, _, _ => false
  end.

(** A complete element one of whose value expressions raises. *)
Definition raising (e : Form4Transaction) : bool :=
  match transactionDate e, transactionCode e, transactionShares e,
        sharesOwnedFollowingTransaction e with
  | Some (Some _), Some (Some _), Some (Some _), Some (Some _) => false
  | Some _, Some _, Some _, Some _ => true
  | _, _, _, _ => false
  end.

(** ** The filing hash as a field element

    The pure prefix of [SECFilingAnalyzer.generate_zk_proof] (lines 437-450),
    from [filing_hash_int] on; [Web3.keccak] is a parameter. *)

Inductive int_exn : Type :=
| OverflowError.

Module Int.

Definition byte_of_Z (z : Z) : Byte.byte :=
  match Byte.of_N (Z.to_N (z mod 256)) with
  | Some b => b
  | None => Byte.x00
  end.

Definition Z_of_byte (b : Byte.byte) : Z := Z.of_N (Byte.to_N b).

(** The [length] low-order bytes of [n], least significant first. *)
Fixpoint to_bytes_le (length : nat) (n : Z) : list Byte.byte :=
  match length with
  | O => []
  | S length' => byte_of_Z n :: to_bytes_le length' (n / 256)
  end.

(** [n.to_bytes(length, 'big')]: [OverflowError] on a negative [n] and on
    one that does not fit. *)
Definition to_bytes (n : Z) (length : nat) : int_exn + list Byte.byte :=
  if (n <? 0) || (256 ^ Z.of_nat length <=? n) then inl OverflowError
  else inr (rev (to_bytes_le length n)).

(** [int.from_bytes(bs, 'big')]. *)
Definition from_bytes (bs : list Byte.byte) : Z :=
  fold_left (fun acc b => acc * 256 + Z_of_byte b) bs 0.

End Int.

Definition BN254_FIELD_MODULUS : Z :=
  21888242871839275222246405745257275088548364400416034343698204186575808495617.

(** Lines 440-445: the hash split into two 128-bit halves and laid out
    again as bytes. *)
Definition combined_bytes (filing_hash_int : Z) : int_exn + list Byte.byte :=
  let filing_hash_high := Z.shiftr filing_hash_int 128 in
  let filing_hash_low := Z.land filing_hash_int (Z.shiftl 1 128 - 1) in
  match Int.to_bytes filing_hash_high 16 with
  | inl e => inl e
  | inr high_bytes =>
      match Int.to_bytes filing_hash_low 16 with
      | inl e => inl e
      | inr low_bytes => inr (high_bytes ++ low_bytes)%list
      end
  end.

(** Lines 446-450. *)
Definition filing_hash_field (keccak : list Byte.byte -> list Byte.byte)
    (filing_hash_int : Z) : int_exn + Z :=
  match combined_bytes filing_hash_int with
  | inl e => inl e
  | inr bytes =>
      let combined_hash := keccak bytes in
      inr (Int.from_bytes combined_hash mod BN254_FIELD_MODULUS)
  end.

(** ** Scenarios for the parser and the hash conversion *)

(** A complete element: the given code, shares and remaining ownership. *)
Definition form4_element (code : string) (shares owned : Z) : Form4Transaction :=
  {| transactionDate := Some (Some "2025-01-15");
     transactionCode := Some (Some code);
     transactionShares := Some (Some shares);
     sharesOwnedFollowingTransaction := Some (Some owned) |}.

(** An element without [transactionShares]. *)
Definition form4_incomplete : Form4Transaction :=
  {| transactionDate := Some (Some "2025-01-15");
     transactionCode := Some (Some "S");
     transactionShares := None;
     sharesOwnedFollowingTransaction := Some (Some 100) |}.

(** A complete element whose share count does not convert. *)
Definition form4_broken : Form4Transaction :=
  {| transactionDate := Some (Some "2025-01-15");
     transactionCode := Some (Some "S");
     transactionShares := Some None;
     sharesOwnedFollowingTransaction := Some (Some 100) |}.

(** The 256-bit hash of the test suite. *)
Definition sample_filing_hash : Z :=
  0x1a2b3c4d5e6f7890abcdef1234567890abcdef1234567890abcdef1234567890.

(** ** Proof automation *)

(** A closed goal is settled by evaluation; a conjunction of closed goals
    conjunct by conjunct, left to right, so that an existential witness is
    fixed by the equation that computes it. *)
Ltac evaluate := vm_compute; first [reflexivity | discriminate].
Ltac evaluate_each := repeat (split; [evaluate |]); evaluate.

(** * Facts about the Python primitives *)

Section PyFacts.

Local Open Scope Q_scope.

Lemma ltb_true (a b : Q) : Py.ltb a b = true <-> a < b.
Proof.
  unfold Py.ltb. rewrite negb_true_iff, <- not_true_iff_false, Qle_bool_iff.
  split; [apply Qnot_le_lt | apply Qlt_not_le].
Qed.

Lemma ltb_false (a b : Q) : Py.ltb a b = false <-> b <= a.
Proof.
  unfold Py.ltb. rewrite negb_false_iff. apply Qle_bool_iff.
Qed.

Lemma max_cases (a b : Q) :
  (Py.max a b = a /\ b <= a) \/ (Py.max a b = b /\ a < b).
Proof.
  unfold Py.max. destruct (Py.ltb a b) eqn:E.
  - right. split; [reflexivity | now apply ltb_true].
  - left. split; [reflexivity | now apply ltb_false].
Qed.

Lemma min_cases (a b : Q) :
  (Py.min a b = a /\ a <= b) \/ (Py.min a b = b /\ b < a).
Proof.
  unfold Py.min. destruct (Py.ltb b a) eqn:E.
  - right. split; [reflexivity | now apply ltb_true].
  - left. split; [reflexivity | now apply ltb_false].
Qed.

Lemma max_Qmax (a b : Q) : Py.max a b == Qmax a b.
Proof.
  destruct (max_cases a b) as [[-> H] | [-> H]].
  - symmetry. now apply Q.max_l.
  - symmetry. apply Q.max_r. now apply Qlt_le_weak.
Qed.

Lemma min_Qmin (a b : Q) : Py.min a b == Qmin a b.
Proof.
  destruct (min_cases a b) as [[-> H] | [-> H]].
  - symmetry. now apply Q.min_l.
  - symmetry. apply Q.min_r. now apply Qlt_le_weak.
Qed.

Lemma max_ge_l (a b : Q) : a <= Py.max a b.
Proof. destruct (max_cases a b) as [[-> H] | [-> H]]; lra. Qed.

Lemma max_ge_r (a b : Q) : b <= Py.max a b.
Proof. destruct (max_cases a b) as [[-> H] | [-> H]]; lra. Qed.

Lemma max_lub (a b c : Q) : a <= c -> b <= c -> Py.max a b <= c.
Proof. destruct (max_cases a b) as [[-> H] | [-> H]]; auto. Qed.

Lemma min_le_l (a b : Q) : Py.min a b <= a.
Proof. destruct (min_cases a b) as [[-> H] | [-> H]]; lra. Qed.

Lemma min_le_r (a b : Q) : Py.min a b <= b.
Proof. destruct (min_cases a b) as [[-> H] | [-> H]]; lra. Qed.

Lemma min_glb (a b c : Q) : c <= a -> c <= b -> c <= Py.min a b.
Proof. destruct (min_cases a b) as [[-> H] | [-> H]]; auto. Qed.

Lemma min_glb_lt (a b c : Q) : c < a -> c < b -> c < Py.min a b.
Proof. destruct (min_cases a b) as [[-> H] | [-> H]]; auto. Qed.

Lemma truediv_ok (a b : Q) : ~ b == 0 -> Py.truediv a b = ok (a / b).
Proof.
  intros Hb. unfold Py.truediv.
  destruct (Qeq_bool b 0) eqn:E; [| reflexivity].
  apply Qeq_bool_iff in E. contradiction.
Qed.

Lemma truediv_zero (a b : Q) : b == 0 -> Py.truediv a b = raise ZeroDivisionError.
Proof.
  intros Hb. unfold Py.truediv. apply Qeq_bool_iff in Hb. now rewrite Hb.
Qed.

End PyFacts.

(** Substring containment is what [Py.contains] decides. *)
Lemma append_cons (c : ascii) (s t : string) :
  (String c s ++ t)%string = String c (s ++ t)%string.
Proof. reflexivity. Qed.

Lemma prefix_app (n h : string) :
  String.prefix n h = true <-> exists post, h = (n ++ post)%string.
Proof.
  revert h. induction n as [| c n IH]; intros h.
  - split; [intros _; now exists h | destruct h; reflexivity].
  - destruct h as [| c' h]; simpl.
    + split; [discriminate | intros [post H]; discriminate].
    + destruct (Ascii.ascii_dec c c') as [-> | Hne].
      * rewrite IH. split; intros [post H]; exists post;
          rewrite append_cons in *; congruence.
      * split; [discriminate | intros [post H]; rewrite append_cons in H; congruence].
Qed.

Lemma contains_substring (n h : string) :
  Py.contains n h = true <-> exists pre post, h = (pre ++ n ++ post)%string.
Proof.
  induction h as [| c h IH]; cbn [Py.contains]; rewrite orb_true_iff, prefix_app.
  - split.
    + intros [[post H] | H]; [| discriminate]. now exists EmptyString, post.
    + intros [pre [post H]]. left. destruct pre as [| c' pre].
      * now exists post.
      * rewrite append_cons in H. discriminate.
  - rewrite IH. split.
    + intros [[post H] | [pre [post H]]].
      * now exists EmptyString, post.
      * exists (String c pre), post. rewrite append_cons. now rewrite H.
    + intros [pre [post H]]. destruct pre as [| c' pre].
      * left. now exists post.
      * right. exists pre, post. rewrite append_cons in H. congruence.
Qed.

(** * The role weight resolved by the detector *)

Section RoleWeight.

Local Open Scope Q_scope.

Lemma weight_loop_cons (rw : string * Q) (table : list (string * Q))
    (title_lower : string) (weight : Q) :
  weight_loop (rw :: table) title_lower weight =
  weight_loop table title_lower
    (if Py.contains (fst rw) title_lower then Py.max weight (snd rw) else weight).
Proof. destruct rw; reflexivity. Qed.

(** The loop never lowers the weight it starts from. *)
Lemma weight_loop_ge (table : list (string * Q)) (title_lower : string) (weight : Q) :
  weight <= weight_loop table title_lower weight.
Proof.
  revert weight. induction table as [| rw table IH]; intros weight.
  - apply Qle_refl.
  - rewrite weight_loop_cons.
    eapply Qle_trans; [| apply IH].
    destruct (Py.contains _ _); [apply max_ge_l | apply Qle_refl].
Qed.

(** The loop stays under any bound on the start and on the table. *)
Lemma weight_loop_le (table : list (string * Q)) (title_lower : string)
    (weight c : Q) :
  weight <= c ->
  Forall (fun rw => snd rw <= c) table ->
  weight_loop table title_lower weight <= c.
Proof.
  revert weight. induction table as [| rw table IH]; intros weight Hw Ht.
  - exact Hw.
  - rewrite weight_loop_cons. inversion Ht as [| ? ? Hrw Ht']; subst.
    apply IH; [| exact Ht'].
    destruct (Py.contains _ _); [now apply max_lub | exact Hw].
Qed.

Lemma fold_Qmax_compat (ws : list Q) (a b : Q) :
  a == b -> fold_left Qmax ws a == fold_left Qmax ws b.
Proof.
  revert a b. induction ws as [| w ws IH]; intros a b Hab; simpl.
  - exact Hab.
  - apply IH. now rewrite Hab.
Qed.

Lemma fold_Qmax_start (ws : list Q) (a b : Q) :
  fold_left Qmax ws (Qmax a b) == Qmax a (fold_left Qmax ws b).
Proof.
  revert b. induction ws as [| w ws IH]; intros b; simpl.
  - reflexivity.
  - rewrite <- IH. apply fold_Qmax_compat. symmetry. apply Q.max_assoc.
Qed.

(** The loop computes the maximum of its start and of the weights of the
    keys that occur in the title. *)
Lemma weight_loop_fold (table : list (string * Q)) (title_lower : string) (weight : Q) :
  weight_loop table title_lower weight ==
  fold_left Qmax
    (map snd (List.filter (fun rw : string * Q => Py.contains (fst rw) title_lower) table))
    weight.
Proof.
  revert weight. induction table as [| rw table IH]; intros weight.
  - reflexivity.
  - rewrite weight_loop_cons. simpl.
    destruct (Py.contains (fst rw) title_lower); simpl.
    + rewrite IH. apply fold_Qmax_compat. apply max_Qmax.
    + apply IH.
Qed.

(** What the detector resolves, against the table as specified: the
    resolved weight is the specified one floored at 1.0. *)
Lemma role_weight_floor (title : string) :
  role_weight title == Qmax 1 (weight_for title).
Proof.
  unfold role_weight, weight_for, matching_weights, matching_entries. cbv zeta.
  rewrite weight_loop_fold.
  destruct (map snd _) as [| w ws]; simpl.
  - reflexivity.
  - rewrite fold_Qmax_start.
    assert (H : 1.0 == 1) by reflexivity. now rewrite H.
Qed.

Lemma role_weight_ge_1 (title : string) : 1 <= role_weight title.
Proof.
  unfold role_weight. cbv zeta.
  eapply Qle_trans; [| apply weight_loop_ge]. vm_compute. discriminate.
Qed.

Lemma role_weight_le_max (title : string) : role_weight title <= 1.5.
Proof.
  unfold role_weight. cbv zeta. apply weight_loop_le.
  - vm_compute. discriminate.
  - unfold ROLE_WEIGHTS. repeat constructor; vm_compute; discriminate.
Qed.

(** Where the specified weight is at least 1.0 the detector agrees with it. *)
Lemma role_weight_agrees (title : string) :
  1 <= weight_for title -> role_weight title == weight_for title.
Proof.
  intros H. rewrite role_weight_floor. now apply Q.max_r.
Qed.

End RoleWeight.

(** * The accumulation loop and the metrics *)

Section MetricsFacts.

Local Open Scope Q_scope.

Lemma fold_accumulate_total_sold (ts : list InsiderTransaction) (acc : Totals) :
  acc_total_sold (fold_left accumulate_step ts acc) =
  (acc_total_sold acc + sum_Z (map shares_sold ts))%Z.
Proof.
  revert acc. induction ts as [| t ts IH]; intros acc; simpl.
  - lia.
  - rewrite IH. simpl. lia.
Qed.

Lemma fold_accumulate_total_bought (ts : list InsiderTransaction) (acc : Totals) :
  acc_total_bought (fold_left accumulate_step ts acc) =
  (acc_total_bought acc + sum_Z (map shares_bought ts))%Z.
Proof.
  revert acc. induction ts as [| t ts IH]; intros acc; simpl.
  - lia.
  - rewrite IH. simpl. lia.
Qed.

Lemma fold_accumulate_multiplier_ge (ts : list InsiderTransaction) (acc : Totals) :
  acc_role_multiplier acc <= acc_role_multiplier (fold_left accumulate_step ts acc).
Proof.
  revert acc. induction ts as [| t ts IH]; intros acc; simpl.
  - apply Qle_refl.
  - eapply Qle_trans; [| apply IH]. simpl. apply max_ge_l.
Qed.

Lemma fold_accumulate_multiplier_le (ts : list InsiderTransaction) (acc : Totals) (c : Q) :
  acc_role_multiplier acc <= c ->
  (forall title, role_weight title <= c) ->
  acc_role_multiplier (fold_left accumulate_step ts acc) <= c.
Proof.
  intros Hacc Hc. revert acc Hacc.
  induction ts as [| t ts IH]; intros acc Hacc; simpl.
  - exact Hacc.
  - apply IH. simpl. now apply max_lub.
Qed.

(** The aggregate multiplier dominates the weight of every record. *)
Lemma fold_accumulate_multiplier_dominates (ts : list InsiderTransaction)
    (acc : Totals) (t : InsiderTransaction) :
  In t ts ->
  role_weight (title t) <= acc_role_multiplier (fold_left accumulate_step ts acc).
Proof.
  revert acc. induction ts as [| t' ts IH]; intros acc Hin; simpl.
  - destruct Hin.
  - destruct Hin as [-> | Hin].
    + eapply Qle_trans; [| apply fold_accumulate_multiplier_ge]. simpl. apply max_ge_r.
    + now apply IH.
Qed.

Lemma sum_Z_nonneg (l : list Z) : Forall (fun z => (0 <= z)%Z) l -> (0 <= sum_Z l)%Z.
Proof.
  induction 1 as [| z l Hz Hl IH]; simpl; lia.
Qed.

Lemma sum_sold_nonneg (ts : list InsiderTransaction) :
  Forall wf_transaction ts -> (0 <= sum_Z (map shares_sold ts))%Z.
Proof.
  induction 1 as [| t ts Ht Hts IH]; simpl; [lia |].
  destruct Ht as [Ht _]. lia.
Qed.

Lemma int_truediv_ok (a b : Z) :
  b <> 0%Z -> Py.int_truediv a b = ok (inject_Z a / inject_Z b).
Proof.
  intros Hb. unfold Py.int_truediv.
  destruct (Z.eqb_spec b 0); [contradiction | reflexivity].
Qed.

Lemma accumulate_total_sold (ts : list InsiderTransaction) :
  acc_total_sold (accumulate ts) = sum_Z (map shares_sold ts).
Proof. unfold accumulate. now rewrite fold_accumulate_total_sold. Qed.

Lemma accumulate_total_bought (ts : list InsiderTransaction) :
  acc_total_bought (accumulate ts) = sum_Z (map shares_bought ts).
Proof. unfold accumulate. now rewrite fold_accumulate_total_bought. Qed.

(** What a successful run of the metrics phase has computed. *)
Lemma metrics_inv (t0 : InsiderTransaction) (rest : list InsiderTransaction) (m : Metrics) :
  metrics t0 rest = ok m ->
  total_sold m = sum_Z (map shares_sold (t0 :: rest)) /\
  total_bought m = sum_Z (map shares_bought (t0 :: rest)) /\
  role_multiplier m = acc_role_multiplier (accumulate (t0 :: rest)) /\
  recent_ownership m = shares_owned_after (List.last (t0 :: rest) t0) /\
  percentage_sold m = unweighted_percentage (t0 :: rest) /\
  effective_percentage m = percentage_sold m * role_multiplier m.
Proof.
  unfold metrics, unweighted_percentage. cbv zeta.
  rewrite accumulate_total_sold, accumulate_total_bought.
  set (total := sum_Z (map shares_sold (t0 :: rest))).
  set (owned := shares_owned_after (List.last (t0 :: rest) t0)).
  destruct (0 <? owned)%Z eqn:Ho.
  - unfold Py.int_truediv. destruct (owned + total =? 0)%Z.
    + discriminate.
    + cbn [bind ok]. intros [= <-]. cbn. repeat split; reflexivity.
  - cbn [bind ok]. intros [= <-]. cbn. repeat split; reflexivity.
Qed.

(** On records that satisfy the data model the metrics phase of the model
    does not raise (the model's arithmetic is exact and unbounded). *)
Lemma metrics_total (t0 : InsiderTransaction) (rest : list InsiderTransaction) :
  Forall wf_transaction (t0 :: rest) -> exists m, metrics t0 rest = ok m.
Proof.
  intros Hwf. pose proof (sum_sold_nonneg _ Hwf) as Hsum.
  unfold metrics. cbv zeta. rewrite accumulate_total_sold.
  destruct (Z.ltb_spec 0 (shares_owned_after (List.last (t0 :: rest) t0))) as [Ho | Ho].
  - rewrite int_truediv_ok by lia. cbn [bind ok]. eexists. reflexivity.
  - cbn [bind ok]. eexists. reflexivity.
Qed.

Lemma role_multiplier_ge_1 (t0 : InsiderTransaction) (rest : list InsiderTransaction)
    (m : Metrics) :
  metrics t0 rest = ok m -> 1 <= role_multiplier m.
Proof.
  intros Hm. apply metrics_inv in Hm as (_ & _ & -> & _).
  unfold accumulate.
  eapply Qle_trans; [| apply fold_accumulate_multiplier_ge]. vm_compute. discriminate.
Qed.

Lemma role_multiplier_le_max (t0 : InsiderTransaction) (rest : list InsiderTransaction)
    (m : Metrics) :
  metrics t0 rest = ok m -> role_multiplier m <= 1.5.
Proof.
  intros Hm. apply metrics_inv in Hm as (_ & _ & -> & _).
  unfold accumulate. apply fold_accumulate_multiplier_le.
  - vm_compute. discriminate.
  - apply role_weight_le_max.
Qed.

Lemma unweighted_percentage_nonneg (ts : list InsiderTransaction) :
  Forall wf_transaction ts -> 0 <= unweighted_percentage ts.
Proof.
  intros Hwf. pose proof (sum_sold_nonneg _ Hwf) as Hsum.
  unfold unweighted_percentage. destruct ts as [| t0 rest]; [apply Qle_refl |].
  cbv zeta. destruct (Z.ltb_spec 0 (shares_owned_after (List.last (t0 :: rest) t0))) as [Ho | Ho];
    [| apply Qle_refl].
  apply Qmult_le_0_compat; [| vm_compute; discriminate].
  apply Qle_shift_div_l.
  - rewrite <- (Zlt_Qlt 0). lia.
  - rewrite Qmult_0_l. rewrite <- (Zle_Qle 0). exact Hsum.
Qed.

End MetricsFacts.

(** * The detector as a whole *)

Section DetectFacts.

Local Open Scope Q_scope.

Lemma bind_ok_inv {A B : Type} (m : result A) (k : A -> result B) (y : B) :
  bind m k = ok y -> exists x, m = ok x /\ k x = ok y.
Proof.
  destruct m as [e | x]; simpl; [discriminate |]. intros H. now exists x.
Qed.

Lemma mapM_length {A B : Type} (f : A -> result B) (l : list A) (l' : list B) :
  mapM f l = ok l' -> length l' = length l.
Proof.
  revert l'. induction l as [| x l IH]; intros l'; simpl.
  - now intros [= <-].
  - intros H. apply bind_ok_inv in H as (y & _ & H).
    apply bind_ok_inv in H as (ys & Hys & H). injection H as <-.
    simpl. f_equal. now apply IH.
Qed.

(** What a firing call has computed on the way to its result. *)
Lemma detect_fires_inv (now : string) (transactions : list InsiderTransaction)
    (threshold : Q) (s : InsiderSignal) :
  detect_insider_selling_signal now transactions threshold = ok (Some s) ->
  exists t0 rest m dates is_clustered date_range_days confidence,
    transactions = t0 :: rest /\
    metrics t0 rest = ok m /\
    threshold <= effective_percentage m /\
    mapM Datetime.fromisoformat (map transaction_date transactions) = ok dates /\
    clustering dates = ok (is_clustered, date_range_days) /\
    _calculate_confidence (percentage_sold m) threshold
      (unique_insiders transactions) is_clustered (role_multiplier m) = ok confidence /\
    s = signal_of now transactions threshold m dates is_clustered
          date_range_days confidence.
Proof.
  unfold detect_insider_selling_signal.
  destruct transactions as [| t0 rest]; [discriminate |].
  intros H. apply bind_ok_inv in H as (m & Hm & H). cbv zeta in H.
  destruct (Qle_bool threshold (effective_percentage m)) eqn:Hfire; [| discriminate].
  apply bind_ok_inv in H as (dates & Hdates & H).
  apply bind_ok_inv in H as ([is_clustered date_range_days] & Hcl & H).
  apply bind_ok_inv in H as (confidence & Hconf & H).
  injection H as <-.
  exists t0, rest, m, dates, is_clustered, date_range_days, confidence.
  repeat split; try assumption. now apply Qle_bool_iff.
Qed.

(** A call that does not fire returns [None] without parsing a date or
    dividing by the threshold. *)
Lemma detect_below (now : string) (t0 : InsiderTransaction)
    (rest : list InsiderTransaction) (threshold : Q) (m : Metrics) :
  metrics t0 rest = ok m ->
  effective_percentage m < threshold ->
  detect_insider_selling_signal now (t0 :: rest) threshold = ok None.
Proof.
  intros Hm Hlt. unfold detect_insider_selling_signal. rewrite Hm. cbn [bind ok].
  destruct (Qle_bool threshold (effective_percentage m)) eqn:Hfire; [| reflexivity].
  apply Qle_bool_iff in Hfire. lra.
Qed.

End DetectFacts.

(** * The confidence score *)

Section ConfidenceFacts.

Local Open Scope Q_scope.

Lemma unique_insiders_pos (t0 : InsiderTransaction) (rest : list InsiderTransaction) :
  (1 <= unique_insiders (t0 :: rest))%Z.
Proof.
  unfold unique_insiders. cbn [map]. rewrite list_to_set_cons, size_union_alt, size_singleton.
  lia.
Qed.

(** With a threshold other than zero the four factors are these. *)
Lemma confidence_factors_ok (pct threshold : Q) (n : Z) (b : bool) (rm : Q) :
  ~ threshold == 0 ->
  confidence_factors pct threshold n b rm =
  ok {| threshold_factor := Py.min (pct / threshold - 1.0) 1.0;
        insider_factor := Py.min (inject_Z n / 3.0) 1.0;
        cluster_factor := if b then 1.0 else 0.5;
        role_factor := Py.min ((rm - 0.7) / 0.8) 1.0 |}.
Proof.
  intros Hthr. unfold confidence_factors. now rewrite truediv_ok.
Qed.

(** With a zero threshold the division raises before any factor exists. *)
Lemma confidence_factors_zero (pct threshold : Q) (n : Z) (b : bool) (rm : Q) :
  threshold == 0 ->
  confidence_factors pct threshold n b rm = raise ZeroDivisionError.
Proof.
  intros Hthr. unfold confidence_factors. now rewrite truediv_zero.
Qed.

Lemma calculate_confidence_zero (pct threshold : Q) (n : Z) (b : bool) (rm : Q) :
  threshold == 0 ->
  _calculate_confidence pct threshold n b rm = raise ZeroDivisionError.
Proof.
  intros Hthr. unfold _calculate_confidence. now rewrite confidence_factors_zero.
Qed.

Lemma calculate_confidence_inv (pct threshold : Q) (n : Z) (b : bool) (rm c : Q) :
  _calculate_confidence pct threshold n b rm = ok c ->
  exists f, confidence_factors pct threshold n b rm = ok f /\
            c = Py.min (weighted_combination f) 0.99.
Proof.
  unfold _calculate_confidence. intros H.
  apply bind_ok_inv in H as (f & Hf & H). injection H as <-. now exists f.
Qed.

Lemma confidence_factors_inv (pct threshold : Q) (n : Z) (b : bool) (rm : Q) (f : Factors) :
  confidence_factors pct threshold n b rm = ok f ->
  ~ threshold == 0 /\
  threshold_factor f = Py.min (pct / threshold - 1.0) 1.0 /\
  insider_factor f = Py.min (inject_Z n / 3.0) 1.0 /\
  cluster_factor f = (if b then 1.0 else 0.5) /\
  role_factor f = Py.min ((rm - 0.7) / 0.8) 1.0.
Proof.
  intros H. destruct (Qeq_dec threshold 0) as [Hz | Hnz].
  - rewrite confidence_factors_zero in H by exact Hz. discriminate.
  - rewrite confidence_factors_ok in H by exact Hnz. injection H as <-.
    repeat split; try reflexivity. exact Hnz.
Qed.

(** With a negative threshold and a non-negative percentage the
    threshold-distance factor is at most -1. *)
Lemma threshold_factor_negative_threshold (pct threshold : Q) :
  threshold < 0 -> 0 <= pct ->
  Py.min (pct / threshold - 1.0) 1.0 <= -1.
Proof.
  intros Hthr Hpct. eapply Qle_trans; [apply min_le_l |].
  assert (H : pct / threshold <= 0).
  { unfold Qdiv. assert (Hinv : / threshold < 0).
    { apply Qnot_le_lt. intros Hge.
      assert (Ht : threshold * / threshold == 1) by (apply Qmult_inv_r; lra).
      nra. }
    nra. }
  lra.
Qed.

(** The cap: whatever the inputs, a returned confidence is at most 0.99. *)
Lemma calculate_confidence_cap (pct threshold : Q) (n : Z) (b : bool) (rm c : Q) :
  _calculate_confidence pct threshold n b rm = ok c -> c <= 0.99.
Proof.
  intros H. apply calculate_confidence_inv in H as (f & _ & ->). apply min_le_r.
Qed.

Lemma insider_factor_bounds (n : Z) :
  (1 <= n)%Z ->
  (1 # 3) <= Py.min (inject_Z n / 3.0) 1.0 <= 1.
Proof.
  intros Hn. split.
  - apply min_glb; [| vm_compute; discriminate].
    apply Qle_shift_div_l; [reflexivity |].
    assert (H : (1 # 3) * 3.0 == inject_Z 1) by reflexivity. rewrite H.
    now rewrite <- Zle_Qle.
  - eapply Qle_trans; [apply min_le_r |]. vm_compute. discriminate.
Qed.

Lemma cluster_factor_bounds (b : bool) :
  0.5 <= (if b then 1.0 else 0.5) <= 1.
Proof. destruct b; split; vm_compute; discriminate. Qed.

Lemma role_factor_value (rm : Q) :
  rm <= 1.5 -> Py.min ((rm - 0.7) / 0.8) 1.0 == (rm - 0.7) / 0.8.
Proof.
  intros Hrm. rewrite min_Qmin. apply Q.min_l.
  apply Qle_shift_div_r; [reflexivity |]. lra.
Qed.

Lemma role_factor_bounds (rm : Q) :
  1 <= rm -> rm <= 1.5 ->
  0.375 <= Py.min ((rm - 0.7) / 0.8) 1.0 <= 1.
Proof.
  intros H1 H2. split.
  - apply min_glb; [| vm_compute; discriminate].
    apply Qle_shift_div_l; [reflexivity |]. lra.
  - eapply Qle_trans; [apply min_le_r |]. vm_compute. discriminate.
Qed.

(** When the signal fires on a positive threshold, the ratio of the
    unweighted percentage to the threshold is at least [1 / role_multiplier]. *)
Lemma fired_ratio_bound (pct threshold rm : Q) :
  0 < threshold -> threshold <= pct * rm -> 1 <= rm -> rm <= 1.5 ->
  (2 # 3) <= pct / threshold.
Proof.
  intros Hthr Hfire H1 H2.
  apply Qle_shift_div_l; [exact Hthr |].
  assert (Hpct : 0 <= pct) by nra.
  nra.
Qed.

Lemma threshold_factor_bounds (pct threshold rm : Q) :
  0 < threshold -> threshold <= pct * rm -> 1 <= rm -> rm <= 1.5 ->
  - (1 # 3) <= Py.min (pct / threshold - 1.0) 1.0 <= 1.
Proof.
  intros Hthr Hfire H1 H2.
  pose proof (fired_ratio_bound _ _ _ Hthr Hfire H1 H2) as Hr.
  split.
  - apply min_glb; [| vm_compute; discriminate]. lra.
  - eapply Qle_trans; [apply min_le_r |]. vm_compute. discriminate.
Qed.

(** On a positive threshold a firing call gets a confidence in (0, 0.99]. *)
Lemma calculate_confidence_bounds (pct threshold : Q) (n : Z) (b : bool) (rm c : Q) :
  0 < threshold -> threshold <= pct * rm -> 1 <= rm -> rm <= 1.5 -> (1 <= n)%Z ->
  _calculate_confidence pct threshold n b rm = ok c ->
  0 < c /\ c <= 0.99.
Proof.
  intros Hthr Hfire H1 H2 Hn Hc.
  split; [| now apply calculate_confidence_cap in Hc].
  apply calculate_confidence_inv in Hc as (f & Hf & ->).
  apply confidence_factors_inv in Hf as (_ & Ht & Hi & Hcl & Hr).
  apply min_glb_lt; [| reflexivity].
  unfold weighted_combination. rewrite Ht, Hi, Hcl, Hr.
  pose proof (threshold_factor_bounds _ _ _ Hthr Hfire H1 H2) as [Ht1 _].
  pose proof (insider_factor_bounds n Hn) as [Hi1 _].
  pose proof (cluster_factor_bounds b) as [Hc1 _].
  pose proof (role_factor_bounds rm H1 H2) as [Hr1 _].
  lra.
Qed.

End ConfidenceFacts.

(** * Time clustering *)

Section ClusteringFacts.

Lemma fold_max_spec (ds : list Z) (d : Z) :
  In (fold_left Z.max ds d) (d :: ds) /\
  forall x, In x (d :: ds) -> x <= fold_left Z.max ds d.
Proof.
  revert d. induction ds as [| e ds IH]; intros d; simpl.
  - split; [now left | intros x [-> | []]; lia].
  - destruct (IH (Z.max d e)) as [Hin Hub]. split.
    + destruct Hin as [Hin | Hin]; [| now right; right].
      rewrite <- Hin. destruct (Z.max_spec d e) as [[_ ->] | [_ ->]]; auto.
    + intros x [-> | [-> | Hx]].
      * etransitivity; [| apply Hub; now left]. lia.
      * etransitivity; [| apply Hub; now left]. lia.
      * apply Hub. now right.
Qed.

Lemma fold_min_spec (ds : list Z) (d : Z) :
  In (fold_left Z.min ds d) (d :: ds) /\
  forall x, In x (d :: ds) -> fold_left Z.min ds d <= x.
Proof.
  revert d. induction ds as [| e ds IH]; intros d; simpl.
  - split; [now left | intros x [-> | []]; lia].
  - destruct (IH (Z.min d e)) as [Hin Hlb]. split.
    + destruct Hin as [Hin | Hin]; [| now right; right].
      rewrite <- Hin. destruct (Z.min_spec d e) as [[_ ->] | [_ ->]]; auto.
    + intros x [-> | [-> | Hx]].
      * etransitivity; [apply Hlb; now left |]. lia.
      * etransitivity; [apply Hlb; now left |]. lia.
      * apply Hlb. now right.
Qed.

(** With two dates or more, the test compares their span with 30 days. *)
Lemma clustering_many (dates : list Z) :
  (2 <= length dates)%nat ->
  exists span,
    is_span dates span /\
    clustering dates = ok (span <=? 30, Some span).
Proof.
  intros Hlen. destruct dates as [| d ds]; [simpl in Hlen; lia |].
  exists (fold_left Z.max ds d - fold_left Z.min ds d). split.
  - destruct (fold_max_spec ds d) as [Hmax_in Hmax].
    destruct (fold_min_spec ds d) as [Hmin_in Hmin].
    exists (fold_left Z.max ds d), (fold_left Z.min ds d).
    repeat split; auto.
  - unfold clustering.
    destruct (Z.ltb_spec 1 (Z.of_nat (length (d :: ds)))) as [_ | H]; [reflexivity | lia].
Qed.

(** With fewer than two dates nothing is compared. *)
Lemma clustering_few (dates : list Z) :
  (length dates <= 1)%nat -> clustering dates = ok (false, None).
Proof.
  intros Hlen. unfold clustering.
  destruct (Z.ltb_spec 1 (Z.of_nat (length dates))) as [H | _]; [lia | reflexivity].
Qed.

(** A span of at most 30 days says that no two dates lie further apart. *)
Lemma is_span_pairs (dates : list Z) (span : Z) :
  is_span dates span ->
  (span <= 30 <-> forall d1 d2, In d1 dates -> In d2 dates -> d1 - d2 <= 30).
Proof.
  intros (latest & earliest & Hl & He & Hall & ->). split.
  - intros H d1 d2 H1 H2.
    pose proof (Hall d1 H1). pose proof (Hall d2 H2). lia.
  - intros H. now apply H.
Qed.

Lemma is_span_unique (dates : list Z) (s1 s2 : Z) :
  is_span dates s1 -> is_span dates s2 -> s1 = s2.
Proof.
  intros (l1 & e1 & Hl1 & He1 & H1 & ->) (l2 & e2 & Hl2 & He2 & H2 & ->).
  pose proof (H1 l2 Hl2). pose proof (H1 e2 He2).
  pose proof (H2 l1 Hl1). pose proof (H2 e1 He1). lia.
Qed.

End ClusteringFacts.

(** * General behaviour of a detection call *)

Section DetectBehaviour.

Local Open Scope Q_scope.

Lemma clustering_total (dates : list Z) : exists r, clustering dates = ok r.
Proof.
  destruct (Nat.le_gt_cases (length dates) 1) as [H | H].
  - rewrite clustering_few by exact H. now eexists.
  - destruct (clustering_many dates H) as (span & _ & ->). now eexists.
Qed.

(** A zero threshold never yields a record: a call that reaches the
    confidence score raises. *)
Lemma detect_zero_threshold (now : string) (transactions : list InsiderTransaction)
    (threshold : Q) (s : InsiderSignal) :
  threshold == 0 ->
  detect_insider_selling_signal now transactions threshold <> ok (Some s).
Proof.
  intros Hz H. apply detect_fires_inv in H
    as (t0 & rest & m & dates & b & dr & c & _ & _ & _ & _ & _ & Hc & _).
  rewrite calculate_confidence_zero in Hc by exact Hz. discriminate.
Qed.

(** With a threshold other than zero, on records that satisfy the data
    model and whose dates parse, the call returns a record exactly when
    the effective percentage reaches the threshold, and [None] otherwise
    (in the model's exact and unbounded arithmetic). *)
Lemma detect_fires_iff (now : string) (t0 : InsiderTransaction)
    (rest : list InsiderTransaction) (threshold : Q) (dates : list Z) :
  Forall wf_transaction (t0 :: rest) ->
  mapM Datetime.fromisoformat (map transaction_date (t0 :: rest)) = ok dates ->
  ~ threshold == 0 ->
  exists m, metrics t0 rest = ok m /\
    (threshold <= effective_percentage m ->
       exists s, detect_insider_selling_signal now (t0 :: rest) threshold = ok (Some s)) /\
    (~ threshold <= effective_percentage m ->
       detect_insider_selling_signal now (t0 :: rest) threshold = ok None).
Proof.
  intros Hwf Hdates Hthr. destruct (metrics_total t0 rest Hwf) as [m Hm].
  exists m. split; [exact Hm |]. split.
  - intros Hfire. unfold detect_insider_selling_signal.
    rewrite Hm. cbn [bind ok]. apply Qle_bool_iff in Hfire. rewrite Hfire.
    rewrite Hdates. cbn [bind ok].
    destruct (clustering_total dates) as [[b dr] ->]. cbn [bind ok].
    unfold _calculate_confidence. rewrite confidence_factors_ok by exact Hthr.
    cbn [bind ok]. now eexists.
  - intros Hno. apply detect_below with (m := m); [exact Hm |]. now apply Qnot_le_lt.
Qed.

(** On a positive threshold and records that satisfy the data model, the
    confidence of a returned record lies in (0, 0.99]. *)
Lemma confidence_bounds_positive_threshold (now : string)
    (transactions : list InsiderTransaction) (threshold : Q) (s : InsiderSignal) :
  0 < threshold ->
  detect_insider_selling_signal now transactions threshold = ok (Some s) ->
  0 < confidence s /\ confidence s <= 0.99.
Proof.
  intros Hthr H. apply detect_fires_inv in H
    as (t0 & rest & m & dates & b & dr & c & -> & Hm & Hfire & _ & _ & Hc & ->).
  cbn [confidence signal_of].
  pose proof (role_multiplier_ge_1 _ _ _ Hm) as H1.
  pose proof (role_multiplier_le_max _ _ _ Hm) as H2.
  apply metrics_inv in Hm as (_ & _ & _ & _ & _ & Heff). rewrite Heff in Hfire.
  eapply calculate_confidence_bounds; eauto using unique_insiders_pos.
Qed.

(** On a positive threshold the factors of a firing call are bounded as
    follows; the threshold-distance factor can be negative. *)
Lemma factors_bounds (pct threshold rm : Q) (n : Z) (b : bool) (f : Factors) :
  0 < threshold -> threshold <= pct * rm -> 1 <= rm -> rm <= 1.5 -> (1 <= n)%Z ->
  confidence_factors pct threshold n b rm = ok f ->
  (- (1 # 3) <= threshold_factor f <= 1) /\
  (0 <= insider_factor f <= 1) /\
  (0 <= cluster_factor f <= 1) /\
  (0 <= role_factor f <= 1).
Proof.
  intros Hthr Hfire H1 H2 Hn Hf.
  apply confidence_factors_inv in Hf as (_ & -> & -> & -> & ->).
  pose proof (threshold_factor_bounds _ _ _ Hthr Hfire H1 H2).
  pose proof (insider_factor_bounds n Hn).
  pose proof (cluster_factor_bounds b).
  pose proof (role_factor_bounds rm H1 H2).
  repeat split; lra.
Qed.

(** The threshold-distance factor agrees with the clamp to [0, 1] exactly
    when the unweighted percentage itself reaches the threshold. *)
Lemma threshold_factor_clamp (pct threshold : Q) :
  0 < threshold -> threshold <= pct ->
  Py.min (pct / threshold - 1.0) 1.0 == Qmax 0 (Qmin (pct / threshold - 1.0) 1).
Proof.
  intros Hthr Hge. rewrite min_Qmin.
  assert (Hr : 1 <= pct / threshold).
  { apply Qle_shift_div_l; [exact Hthr | lra]. }
  assert (E : 1.0 == 1) by reflexivity. rewrite E.
  symmetry. apply Q.max_r. apply Q.min_glb; lra.
Qed.

(** A single record's aggregate multiplier is the weight of its title. *)
Lemma single_role_multiplier (t : InsiderTransaction) (m : Metrics) :
  metrics t [] = ok m -> role_multiplier m == role_weight (title t).
Proof.
  intros Hm. apply metrics_inv in Hm as (_ & _ & -> & _).
  unfold accumulate. cbn [fold_left accumulate_step acc_role_multiplier].
  rewrite max_Qmax. apply Q.max_r.
  pose proof (role_weight_ge_1 (title t)) as H.
  assert (E : 1.0 == 1) by reflexivity. now rewrite E.
Qed.

Lemma single_percentage_sold (t : InsiderTransaction) (role_title : string)
    (m m' : Metrics) :
  metrics t [] = ok m -> metrics (with_title t role_title) [] = ok m' ->
  percentage_sold m' = percentage_sold m.
Proof.
  intros Hm Hm'.
  apply metrics_inv in Hm as (_ & _ & _ & _ & -> & _).
  apply metrics_inv in Hm' as (_ & _ & _ & _ & -> & _).
  reflexivity.
Qed.

(** Between two single-record inputs that differ in the role title only,
    the one whose title the detector resolves to the strictly higher
    weight has the strictly greater effective percentage. *)
Lemma effective_percentage_monotone (t : InsiderTransaction) (role_title : string)
    (m m' : Metrics) :
  metrics t [] = ok m -> metrics (with_title t role_title) [] = ok m' ->
  0 < percentage_sold m ->
  role_weight (title t) < role_weight role_title ->
  effective_percentage m < effective_percentage m'.
Proof.
  intros Hm Hm' Hpos Hlt.
  pose proof (single_percentage_sold _ _ _ _ Hm Hm') as Hpct.
  pose proof (single_role_multiplier _ _ Hm) as Hrm.
  pose proof (single_role_multiplier _ _ Hm') as Hrm'. cbn [title with_title] in Hrm'.
  apply metrics_inv in Hm as (_ & _ & _ & _ & _ & ->).
  apply metrics_inv in Hm' as (_ & _ & _ & _ & _ & ->).
  rewrite Hpct, Hrm, Hrm'. nra.
Qed.

End DetectBehaviour.

(** * The scenarios of the test suite, evaluated *)

Section TestSuite.

Local Open Scope Q_scope.

Lemma detect_empty (now : string) (threshold : Q) :
  detect_insider_selling_signal now [] threshold = ok None.
Proof. reflexivity. Qed.

(** The two-record sample fires at 40 with a value above the threshold. *)
Example test_detect_insider_selling_above_threshold :
  exists s,
    detect_insider_selling_signal "now" sample_transactions 40 = ok (Some s) /\
    signal_type s = "INSIDER_SELLING" /\
    threshold_exceeded s = true /\
    40 <= threshold_value s.
Proof. eexists. evaluate_each. Qed.

(** A director selling 10,000 of 210,000 shares does not fire at 40. *)
Example test_detect_insider_selling_below_threshold :
  detect_insider_selling_signal "now" [sale "Director" 10000 200000] 40 = ok None.
Proof. evaluate. Qed.

(** The same sale weighs more for a chief executive than for a director;
    "director" contains the key "cto", so a director's weight is 1.2. *)
Example test_role_weighting_ceo_vs_director :
  exists s s',
    detect_insider_selling_signal "now" [sale "Chief Executive Officer" 100000 150000] 40
      = ok (Some s) /\
    detect_insider_selling_signal "now" [sale "Director" 100000 150000] 40
      = ok (Some s') /\
    d_effective_percentage (details s) == 60 /\
    d_effective_percentage (details s') == 48 /\
    role_weight "Director" == 1.2.
Proof. do 2 eexists. evaluate_each. Qed.

(** Two sales five days apart are clustered. *)
Example test_time_clustering_detection :
  exists s,
    detect_insider_selling_signal "now" (two_sales "2025-01-15" "2025-01-20") 30
      = ok (Some s) /\
    d_time_clustered (details s) = Some true.
Proof. eexists. evaluate_each. Qed.

(** 42,900 shares sold of 100,000 is reported as 42.9. *)
Example test_percentage_calculation_accuracy :
  exists s,
    detect_insider_selling_signal "now" [sale "CEO" 42900 57100] 40 = ok (Some s) /\
    threshold_value s == 42.9.
Proof. eexists. evaluate_each. Qed.

(** Five chief executives selling 90% each: every factor saturates and the
    confidence is capped at 0.99. *)
Example test_confidence_never_exceeds_99_percent :
  exists s,
    detect_insider_selling_signal "now" extreme_transactions 40 = ok (Some s) /\
    d_num_unique_insiders (details s) = 5%Z /\
    confidence s == 0.99.
Proof. eexists. evaluate_each. Qed.

End TestSuite.

(** * The stated properties *)

Section Claims.

Local Open Scope Q_scope.

(** C1. The resolved role weight is stated to be the maximum table weight
    over the matching keys, with 1.0 for titles that match no key, so that a
    title matching only "10% owner" resolves to 0.7 and one matching only
    "insider" to 0.8.  The detector starts its maximum at 1.0: on the title
    "10% Owner", whose only matching entry is ("10% owner", 0.7), it resolves
    1.0 where the table gives 0.7, and likewise 1.0 for "Insider". *)
Theorem role_weight_ignores_sub_unit_entries :
  matching_entries "10% Owner" = [("10% owner", 0.7)] /\
  weight_for "10% Owner" == 0.7 /\
  role_weight "10% Owner" == 1.0 /\
  matching_entries "Insider" = [("insider", 0.8)] /\
  weight_for "Insider" == 0.8 /\
  role_weight "Insider" == 1.0.
Proof.
  evaluate_each.
Qed.

(** C2. A zero or negative threshold is stated not to raise and to clamp the
    threshold-distance factor to 1.0.  On the two-record sample the call
    with threshold 0 raises [ZeroDivisionError]; with threshold -40 the call
    fires and its threshold-distance factor is -8/3, not 1.0. *)
Theorem degenerate_threshold_unguarded :
  detect_insider_selling_signal "now" sample_transactions 0 = raise ZeroDivisionError /\
  exists m f,
    metrics ceo_sale [cfo_sale] = ok m /\
    -40 <= effective_percentage m /\
    confidence_factors (percentage_sold m) (-40) (unique_insiders sample_transactions)
      true (role_multiplier m) = ok f /\
    threshold_factor f == - (8 # 3).
Proof.
  split; [evaluate |]. do 2 eexists. evaluate_each.
Qed.

(** C3. The confidence of every returned record is stated to lie in
    (0, 0.99].  On the two-record sample with threshold -40 the call returns
    a record whose confidence is negative. *)
Theorem negative_threshold_negative_confidence :
  exists s,
    detect_insider_selling_signal "now" sample_transactions (-40) = ok (Some s) /\
    confidence s == - (17 # 30) /\
    confidence s < 0.
Proof.
  eexists. evaluate_each.
Qed.

(** C4. On a non-empty list a record is stated to be returned exactly when
    the effective percentage reaches the threshold.  For a single director
    selling 10,000 shares and keeping 200,000, with threshold 0, the
    effective percentage (40/7) reaches the threshold, and the call raises
    [ZeroDivisionError] instead of returning a record. *)
Theorem zero_threshold_no_record :
  exists m,
    metrics (sale "Director" 10000 200000) [] = ok m /\
    effective_percentage m == 40 # 7 /\
    0 <= effective_percentage m /\
    detect_insider_selling_signal "now" [sale "Director" 10000 200000] 0
      = raise ZeroDivisionError.
Proof.
  eexists. evaluate_each.
Qed.

(** C5. When the detector fires, the [threshold_value] of the record is the
    unweighted percentage: the total sold over the last record's
    [shares_owned_after] plus the total sold, times 100, or 0 when that
    ownership is not positive.  The firing decision compared the threshold
    with that percentage times the aggregate role multiplier. *)
Theorem threshold_value_unweighted (now : string)
    (transactions : list InsiderTransaction) (threshold : Q) (s : InsiderSignal) :
  detect_insider_selling_signal now transactions threshold = ok (Some s) ->
  threshold_value s = unweighted_percentage transactions /\
  threshold <= unweighted_percentage transactions
               * acc_role_multiplier (accumulate transactions).
Proof.
  intros H. apply detect_fires_inv in H
    as (t0 & rest & m & dates & b & dr & c & -> & Hm & Hfire & _ & _ & _ & ->).
  apply metrics_inv in Hm as (_ & _ & Hrm & _ & Hpct & Heff).
  cbn [threshold_value signal_of]. split; [exact Hpct |].
  now rewrite <- Hpct, <- Hrm, <- Heff.
Qed.

Lemma threshold_value_unweighted_witness :
  exists s,
    detect_insider_selling_signal "now" sample_transactions 40 = ok (Some s) /\
    threshold_value s = unweighted_percentage sample_transactions /\
    40 <= unweighted_percentage sample_transactions
          * acc_role_multiplier (accumulate sample_transactions).
Proof.
  eexists. split; [vm_compute; reflexivity |].
  apply (threshold_value_unweighted "now" sample_transactions 40).
  vm_compute. reflexivity.
Defined.

(** C6. On a positive threshold the threshold-distance factor is stated to
    be [clamp(percentage_sold / threshold - 1.0, 0, 1)], never negative.
    For a CEO selling 30,000 shares and keeping 70,000, with threshold 40,
    the unweighted percentage is 30 and the effective one 45, the call
    fires, and its threshold-distance factor is -1/4 where the clamp is 0. *)
Theorem threshold_factor_not_clamped_below :
  exists s m f,
    detect_insider_selling_signal "now" [sale "CEO" 30000 70000] 40 = ok (Some s) /\
    metrics (sale "CEO" 30000 70000) [] = ok m /\
    percentage_sold m == 30 /\
    effective_percentage m == 45 /\
    confidence_factors (percentage_sold m) 40 (unique_insiders [sale "CEO" 30000 70000])
      false (role_multiplier m) = ok f /\
    threshold_factor f == - (1 # 4) /\
    clamp (percentage_sold m / 40 - 1.0) 0 1 == 0.
Proof.
  do 3 eexists. evaluate_each.
Qed.

(** C7. Between two single-record inputs that differ in the role title only
    and have a positive unweighted percentage, the title of strictly higher
    table weight is stated to give the strictly greater effective
    percentage.  "Officer" has table weight 0.9 and "10% Owner" 0.7; for a
    sale of 100,000 shares keeping 150,000 both effective percentages are 40. *)
Theorem sub_unit_roles_not_monotone :
  exists m m',
    metrics (sale "10% Owner" 100000 150000) [] = ok m /\
    metrics (with_title (sale "10% Owner" 100000 150000) "Officer") [] = ok m' /\
    weight_for "10% Owner" == 0.7 /\
    weight_for "Officer" == 0.9 /\
    0 < percentage_sold m /\
    0 < percentage_sold m' /\
    effective_percentage m == 40 /\
    effective_percentage m' == 40.
Proof.
  do 2 eexists. evaluate_each.
Qed.



(** Two records exactly 30 days apart are reported as clustered. *)
Example clustered_30_days_apart :
  exists s,
    detect_insider_selling_signal "now" (two_sales "2025-01-01" "2025-01-31") 30
      = ok (Some s) /\
    d_date_range_days (details s) = 30%Z /\
    d_time_clustered (details s) = Some true.
Proof.
  eexists. evaluate_each.
Qed.

(** Two records 31 days apart are not. *)
Example not_clustered_31_days_apart :
  exists s,
    detect_insider_selling_signal "now" (two_sales "2025-01-01" "2025-02-01") 30
      = ok (Some s) /\
    d_date_range_days (details s) = 31%Z /\
    d_time_clustered (details s) = Some false.
Proof.
  eexists. evaluate_each.
Qed.

(** C9, as stated: on the two-record sample with threshold 40.0 the record's
    [threshold_value] is said to be approximately 48.98.  It is not, even to
    within 1. *)
Lemma sample_value_not_48_98 :
  ~ (exists s,
       detect_insider_selling_signal "now" sample_transactions 40 = ok (Some s) /\
       Qabs (threshold_value s - 48.98) <= 1 /\
       0 < confidence s /\ confidence s < 0.99).
Proof.
  intros (s & Hs & Habs & _).
  apply detect_fires_inv in Hs
    as (t0 & rest & m & dates & b & dr & c & [= <- <-] & Hm & _ & _ & _ & _ & ->).
  apply metrics_inv in Hm as (_ & _ & _ & _ & Hpct & _).
  cbn [threshold_value signal_of] in Habs. rewrite Hpct in Habs.
  vm_compute in Habs. now apply Habs.
Qed.

(** C9, amended: on the two-record sample (a CEO sells 150,000 shares and
    keeps 200,000, a CFO then sells 50,000 and keeps 100,000) with threshold
    40.0 the detector fires; the [threshold_value] is
    200000 / (100000 + 200000) * 100 = 200/3, about 66.67, and the
    confidence is 23/30, strictly between 0 and 0.99. *)
Theorem sample_value_66_67 :
  exists s,
    detect_insider_selling_signal "now" sample_transactions 40 = ok (Some s) /\
    threshold_value s == 200 # 3 /\
    Py.round2 (threshold_value s) == 66.67 /\
    confidence s == 23 # 30 /\
    0 < confidence s /\
    confidence s < 0.99.
Proof.
  eexists. evaluate_each.
Qed.

(** C10, as stated: the effective percentage is said to be at least the
    unweighted percentage on every detection call.  For a CEO with
    [shares_sold] -10 and 100 shares owned after, the unweighted percentage
    is -100/9 and the effective one -50/3, which is smaller. *)
Lemma negative_sale_lowers_effective_percentage :
  exists m,
    metrics (sale "CEO" (-10) 100) [] = ok m /\
    percentage_sold m == - (100 # 9) /\
    effective_percentage m == - (50 # 3) /\
    effective_percentage m < percentage_sold m.
Proof.
  eexists. evaluate_each.
Qed.

(** C10, amended: the weight resolved for every title is at least 1.0, and
    on every call whose metrics phase completes so is the aggregate role
    multiplier; the effective percentage is then at least the unweighted
    percentage whenever that percentage is not negative, as it is whenever
    no record has a negative [shares_sold]. *)
Theorem role_weights_never_below_one (t0 : InsiderTransaction)
    (rest : list InsiderTransaction) (m : Metrics) :
  metrics t0 rest = ok m ->
  (forall role_title, 1 <= role_weight role_title) /\
  1 <= role_multiplier m /\
  (0 <= percentage_sold m -> percentage_sold m <= effective_percentage m) /\
  (Forall (fun t => (0 <= shares_sold t)%Z) (t0 :: rest) -> 0 <= percentage_sold m).
Proof.
  intros Hm. split; [apply role_weight_ge_1 |].
  pose proof (role_multiplier_ge_1 _ _ _ Hm) as Hrm.
  split; [exact Hrm |].
  apply metrics_inv in Hm as (_ & _ & _ & _ & Hpct & ->). split.
  - intros Hpos. nra.
  - intros Hsold. rewrite Hpct. unfold unweighted_percentage. cbv zeta.
    assert (Hsum : (0 <= sum_Z (map shares_sold (t0 :: rest)))%Z).
    { clear -Hsold. induction Hsold as [| t ts Ht Hts IH]; simpl in *; lia. }
    destruct (Z.ltb_spec 0 (shares_owned_after (List.last (t0 :: rest) t0))) as [Ho | Ho];
      [| apply Qle_refl].
    apply Qmult_le_0_compat; [| vm_compute; discriminate].
    apply Qle_shift_div_l.
    + rewrite <- (Zlt_Qlt 0). lia.
    + rewrite Qmult_0_l. rewrite <- (Zle_Qle 0). exact Hsum.
Qed.

Lemma role_weights_never_below_one_witness :
  exists m,
    metrics (sale "10% Owner" 100000 150000) [] = ok m /\
    (forall role_title, 1 <= role_weight role_title) /\
    1 <= role_multiplier m /\
    (0 <= percentage_sold m -> percentage_sold m <= effective_percentage m) /\
    (Forall (fun t => (0 <= shares_sold t)%Z) [sale "10% Owner" 100000 150000] ->
     0 <= percentage_sold m).
Proof.
  assert (H : exists m, metrics (sale "10% Owner" 100000 150000) [] = ok m)
    by (eexists; vm_compute; reflexivity).
  destruct H as [m Hm]. exists m. split; [exact Hm |].
  exact (role_weights_never_below_one (sale "10% Owner" 100000 150000) [] m Hm).
Defined.

End Claims.

(** * The filing hash conversion *)

Section HashFacts.

Lemma Z_of_byte_range (b : Byte.byte) : 0 <= Int.Z_of_byte b < 256.
Proof.
  unfold Int.Z_of_byte. pose proof (Byte.to_N_bounded b). lia.
Qed.

Lemma Z_of_byte_of_Z (z : Z) : Int.Z_of_byte (Int.byte_of_Z z) = z mod 256.
Proof.
  unfold Int.Z_of_byte, Int.byte_of_Z.
  pose proof (Z.mod_pos_bound z 256 ltac:(lia)) as Hr.
  destruct (Byte.of_N (Z.to_N (z mod 256))) as [b |] eqn:E.
  - apply Byte.to_of_N in E. rewrite E. lia.
  - apply Byte.of_N_None_iff in E. lia.
Qed.

Lemma byte_of_Z_mod (z : Z) : Int.byte_of_Z (z mod 256) = Int.byte_of_Z z.
Proof.
  unfold Int.byte_of_Z. now rewrite Z.mod_mod by lia.
Qed.

Lemma pow256_pos (k : nat) : 0 < 256 ^ Z.of_nat k.
Proof. apply Z.pow_pos_nonneg; lia. Qed.

Lemma pow256_succ (k : nat) : 256 ^ Z.of_nat (S k) = 256 * 256 ^ Z.of_nat k.
Proof. rewrite Nat2Z.inj_succ, Z.pow_succ_r; lia. Qed.

Lemma from_bytes_snoc (bs : list Byte.byte) (b : Byte.byte) :
  Int.from_bytes (bs ++ [b]) = Int.from_bytes bs * 256 + Int.Z_of_byte b.
Proof.
  unfold Int.from_bytes. now rewrite fold_left_app.
Qed.

(** Decoding the big-endian layout of the [k] low-order bytes of [n] gives
    [n] modulo [256 ^ k]. *)
Lemma from_bytes_to_bytes_le (k : nat) (n : Z) :
  Int.from_bytes (rev (Int.to_bytes_le k n)) = n mod 256 ^ Z.of_nat k.
Proof.
  revert n. induction k as [| k IH]; intros n.
  - simpl. now rewrite Z.mod_1_r.
  - cbn [Int.to_bytes_le rev]. rewrite from_bytes_snoc, IH, Z_of_byte_of_Z, pow256_succ.
    rewrite Z.rem_mul_r by (pose proof (pow256_pos k); lia). lia.
Qed.

Lemma to_bytes_le_length (k : nat) (n : Z) : length (Int.to_bytes_le k n) = k.
Proof.
  revert n. induction k as [| k IH]; intros n; simpl; [reflexivity |]. now rewrite IH.
Qed.

(** Only [n] modulo [256 ^ k] matters for its [k] low-order bytes. *)
Lemma to_bytes_le_mod (k : nat) (n : Z) :
  Int.to_bytes_le k (n mod 256 ^ Z.of_nat k) = Int.to_bytes_le k n.
Proof.
  revert n. induction k as [| k IH]; intros n; [reflexivity |].
  cbn [Int.to_bytes_le]. rewrite pow256_succ.
  pose proof (pow256_pos k) as Hp.
  rewrite Z.rem_mul_r by lia.
  pose proof (Z.mod_pos_bound n 256 ltac:(lia)) as Hr.
  f_equal.
  - rewrite <- (byte_of_Z_mod n), <- (byte_of_Z_mod (_ + _)). f_equal.
    rewrite (Z.mul_comm 256), Z.mod_add by lia. apply Z.mod_mod. lia.
  - rewrite (Z.mul_comm 256), Z.div_add by lia.
    rewrite (Z.div_small (n mod 256)) by lia. rewrite Z.add_0_l. apply IH.
Qed.

(** The bytes of [n] are its low-order bytes followed by those of the quotient. *)
Lemma to_bytes_le_app (j k : nat) (n : Z) :
  Int.to_bytes_le (j + k) n =
  (Int.to_bytes_le j n ++ Int.to_bytes_le k (n / 256 ^ Z.of_nat j))%list.
Proof.
  revert n. induction j as [| j IH]; intros n.
  - simpl. now rewrite Z.div_1_r.
  - cbn [Nat.add Int.to_bytes_le app]. f_equal. rewrite IH. f_equal. f_equal.
    rewrite pow256_succ. rewrite Z.div_div by (pose proof (pow256_pos j); lia).
    reflexivity.
Qed.

Lemma to_bytes_inv (n : Z) (k : nat) (bs : list Byte.byte) :
  Int.to_bytes n k = inr bs ->
  0 <= n < 256 ^ Z.of_nat k /\ bs = rev (Int.to_bytes_le k n).
Proof.
  unfold Int.to_bytes.
  destruct (Z.ltb_spec n 0); destruct (Z.leb_spec (256 ^ Z.of_nat k) n);
    simpl; try discriminate.
  intros [= <-]. split; [lia | reflexivity].
Qed.

Lemma to_bytes_ok (n : Z) (k : nat) :
  0 <= n < 256 ^ Z.of_nat k -> Int.to_bytes n k = inr (rev (Int.to_bytes_le k n)).
Proof.
  intros H. unfold Int.to_bytes.
  destruct (Z.ltb_spec n 0); destruct (Z.leb_spec (256 ^ Z.of_nat k) n);
    simpl; try lia. reflexivity.
Qed.

Lemma to_bytes_overflow (n : Z) (k : nat) :
  n < 0 \/ 256 ^ Z.of_nat k <= n -> Int.to_bytes n k = inl OverflowError.
Proof.
  intros H. unfold Int.to_bytes.
  destruct (Z.ltb_spec n 0); destruct (Z.leb_spec (256 ^ Z.of_nat k) n);
    simpl; try lia; reflexivity.
Qed.

Lemma pow256_16 : 256 ^ Z.of_nat 16 = 2 ^ 128.
Proof. reflexivity. Qed.

Lemma pow256_32 : 256 ^ Z.of_nat 32 = 2 ^ 128 * 2 ^ 128.
Proof. reflexivity. Qed.

Lemma low_mask (h : Z) : Z.land h (Z.shiftl 1 128 - 1) = h mod 2 ^ 128.
Proof.
  change (Z.shiftl 1 128 - 1) with (Z.ones 128). apply Z.land_ones. lia.
Qed.

(** The split and the byte layout together, for a hash in range. *)
Lemma combined_bytes_ok (h : Z) :
  0 <= h < 2 ^ 256 -> combined_bytes h = Int.to_bytes h 32.
Proof.
  intros Hh. unfold combined_bytes. cbv zeta.
  rewrite Z.shiftr_div_pow2 by lia. rewrite low_mask.
  assert (Hp : 0 < 2 ^ 128) by (apply Z.pow_pos_nonneg; lia).
  assert (Hhigh : 0 <= h / 2 ^ 128 < 2 ^ 128).
  { split; [apply Z.div_pos; lia |].
    apply Z.div_lt_upper_bound; [lia |]. change (2 ^ 256) with (2 ^ 128 * 2 ^ 128) in Hh. lia. }
  pose proof (Z.mod_pos_bound h (2 ^ 128) Hp) as Hlow.
  rewrite !to_bytes_ok by (rewrite ?pow256_16, ?pow256_32;
                           change (2 ^ 256) with (2 ^ 128 * 2 ^ 128) in Hh; lia).
  f_equal. rewrite <- rev_app_distr. f_equal.
  change 32%nat with (16 + 16)%nat. rewrite to_bytes_le_app, pow256_16.
  f_equal. rewrite <- pow256_16. apply to_bytes_le_mod.
Qed.

Lemma combined_bytes_overflow (h : Z) :
  h < 0 \/ 2 ^ 256 <= h -> combined_bytes h = inl OverflowError.
Proof.
  intros Hh. unfold combined_bytes. cbv zeta.
  rewrite Z.shiftr_div_pow2 by lia.
  assert (Hp : 0 < 2 ^ 128) by (apply Z.pow_pos_nonneg; lia).
  rewrite to_bytes_overflow; [reflexivity |]. rewrite pow256_16.
  destruct Hh as [Hneg | Hbig].
  - left. apply Z.div_lt_upper_bound; lia.
  - right. apply Z.div_le_lower_bound; [lia |].
    change (2 ^ 256) with (2 ^ 128 * 2 ^ 128) in Hbig. lia.
Qed.

End HashFacts.

(** * Further properties of the role weights *)

Section RoleWeightProperties.

Local Open Scope Q_scope.

(** A key that occurs in the title bounds the result of the loop from below. *)
Lemma weight_loop_entry_le (table : list (string * Q)) (title_lower : string)
    (weight : Q) (role : string) (w : Q) :
  In (role, w) table -> Py.contains role title_lower = true ->
  w <= weight_loop table title_lower weight.
Proof.
  revert weight. induction table as [| rw table IH]; intros weight Hin Hc.
  - destruct Hin.
  - rewrite weight_loop_cons. destruct Hin as [-> | Hin].
    + cbn [fst snd]. rewrite Hc.
      eapply Qle_trans; [apply max_ge_r | apply weight_loop_ge].
    + now apply IH.
Qed.

(** The result of the loop is its start or the weight of a key that occurs
    in the title. *)
Lemma weight_loop_origin (table : list (string * Q)) (title_lower : string) (weight : Q) :
  weight_loop table title_lower weight = weight \/
  exists role w, In (role, w) table /\ Py.contains role title_lower = true /\
                 weight_loop table title_lower weight = w.
Proof.
  revert weight. induction table as [| [role w] table IH]; intros weight.
  - now left.
  - rewrite weight_loop_cons. cbn [fst snd].
    destruct (Py.contains role title_lower) eqn:Hc.
    + destruct (IH (Py.max weight w)) as [Heq | (role' & w' & Hin & Hc' & Heq)].
      * rewrite Heq. destruct (max_cases weight w) as [[-> _] | [-> _]]; [now left |].
        right. exists role, w. repeat split; auto. now left.
      * right. exists role', w'. repeat split; auto. now right.
    + destruct (IH weight) as [Heq | (role' & w' & Hin & Hc' & Heq)]; [now left |].
      right. exists role', w'. repeat split; auto. now right.
Qed.

Lemma append_assoc (a b c : string) :
  ((a ++ b) ++ c)%string = (a ++ (b ++ c))%string.
Proof.
  induction a as [| x a IH]; [reflexivity |].
  rewrite !append_cons. now rewrite IH.
Qed.

(** Occurring in is transitive. *)
Lemma contains_trans (a b c : string) :
  Py.contains a b = true -> Py.contains b c = true -> Py.contains a c = true.
Proof.
  rewrite !contains_substring.
  intros (p & q & ->) (p' & q' & ->).
  exists (p' ++ p)%string, (q ++ q')%string.
  now rewrite !append_assoc.
Qed.

(** X1. The weight resolved for a title is the largest table weight among
    the keys occurring in the lowered title, floored at 1.0, and 1.0 when no
    key occurs. *)
Theorem role_weight_is_floored_table_maximum (role_title : string) :
  role_weight role_title == Qmax 1 (weight_for role_title) /\
  (matching_entries role_title = [] -> role_weight role_title == 1) /\
  (forall role w, In (role, w) (matching_entries role_title) -> w <= role_weight role_title).
Proof.
  split; [apply role_weight_floor |]. split.
  - intros Hnone. rewrite role_weight_floor. unfold weight_for, matching_weights.
    rewrite Hnone. reflexivity.
  - intros role w Hin. unfold matching_entries in Hin.
    apply filter_In in Hin as [Hin Hc]. cbn [fst] in Hc.
    unfold role_weight. cbv zeta. now apply weight_loop_entry_le with (role := role).
Qed.

(** X2. The resolved weight takes one of five values: 1.0, 1.2, 1.3, 1.4
    or 1.5. *)
Theorem role_weight_range (role_title : string) :
  role_weight role_title == 1.0 \/ role_weight role_title == 1.2 \/
  role_weight role_title == 1.3 \/ role_weight role_title == 1.4 \/
  role_weight role_title == 1.5.
Proof.
  pose proof (role_weight_ge_1 role_title) as Hge.
  unfold role_weight in *. cbv zeta in *.
  destruct (weight_loop_origin ROLE_WEIGHTS (Py.lower role_title) 1.0)
    as [-> | (role & w & Hin & _ & Heq)]; [left; reflexivity |].
  rewrite Heq in *. clear Heq.
  unfold ROLE_WEIGHTS in Hin. cbn [In] in Hin.
  repeat (destruct Hin as [Hin | Hin];
          [injection Hin as <- <-;
           first [ left; reflexivity
                 | right; left; reflexivity
                 | right; right; left; reflexivity
                 | right; right; right; left; reflexivity
                 | right; right; right; right; reflexivity
                 | exfalso; revert Hge; vm_compute; intros Hge; now apply Hge ] |]).
  destruct Hin.
Qed.

(** X3. A title gets the top weight 1.5 exactly when its lowered form
    contains "ceo" or "chief executive officer". *)
Theorem top_weight_iff_chief_executive (role_title : string) :
  role_weight role_title == 1.5 <->
  Py.contains "ceo" (Py.lower role_title) = true \/
  Py.contains "chief executive officer" (Py.lower role_title) = true.
Proof.
  split.
  - intros Htop. unfold role_weight in Htop. cbv zeta in Htop.
    destruct (weight_loop_origin ROLE_WEIGHTS (Py.lower role_title) 1.0)
      as [Heq | (role & w & Hin & Hc & Heq)].
    + rewrite Heq in Htop. revert Htop. vm_compute. discriminate.
    + rewrite Heq in Htop. clear Heq.
      unfold ROLE_WEIGHTS in Hin. cbn [In] in Hin.
      repeat (destruct Hin as [Hin | Hin];
              [injection Hin as <- <-;
               first [ now left | now right
                     | exfalso; revert Htop; vm_compute; discriminate ] |]).
      destruct Hin.
  - intros Hc. apply Qle_antisym; [apply role_weight_le_max |].
    unfold role_weight. cbv zeta. destruct Hc as [Hc | Hc].
    + apply weight_loop_entry_le with (role := "ceo"); [| exact Hc].
      unfold ROLE_WEIGHTS. cbn [In]. auto.
    + apply weight_loop_entry_le with (role := "chief executive officer"); [| exact Hc].
      unfold ROLE_WEIGHTS. cbn [In]. auto.
Qed.

(** X4. The key "cto" occurs in "director": every title whose lowered form
    contains "director" is weighted at least 1.2, whatever the table's own
    entry 1.0 for "director". *)
Theorem director_weighs_as_cto (role_title : string) :
  Py.contains "director" (Py.lower role_title) = true ->
  1.2 <= role_weight role_title.
Proof.
  intros Hd. unfold role_weight. cbv zeta.
  apply weight_loop_entry_le with (role := "cto").
  - unfold ROLE_WEIGHTS. cbn [In]. auto 10.
  - apply contains_trans with (b := "director"); [reflexivity | exact Hd].
Qed.

Lemma director_weighs_as_cto_witness :
  Py.contains "director" (Py.lower "Director") = true /\
  1.2 <= role_weight "Director" /\ role_weight "Director" == 1.2.
Proof.
  split; [reflexivity |]. split.
  - apply (director_weighs_as_cto "Director"). reflexivity.
  - vm_compute. reflexivity.
Defined.

End RoleWeightProperties.

(** * Further properties of the metrics and of the firing decision *)

Section MetricsProperties.

Local Open Scope Q_scope.

Lemma metrics_percentage (t0 : InsiderTransaction) (rest : list InsiderTransaction)
    (m : Metrics) :
  metrics t0 rest = ok m ->
  percentage_sold m = unweighted_percentage (t0 :: rest) /\
  effective_percentage m = percentage_sold m * role_multiplier m.
Proof.
  intros Hm. now apply metrics_inv in Hm as (_ & _ & _ & _ & Hpct & Heff).
Qed.

Lemma unweighted_percentage_le_100 (ts : list InsiderTransaction) :
  Forall wf_transaction ts -> unweighted_percentage ts <= 100.
Proof.
  intros Hwf. pose proof (sum_sold_nonneg _ Hwf) as Hsum.
  unfold unweighted_percentage. destruct ts as [| t0 rest]; [vm_compute; discriminate |].
  cbv zeta.
  destruct (Z.ltb_spec 0 (shares_owned_after (List.last (t0 :: rest) t0))) as [Ho | Ho];
    [| vm_compute; discriminate].
  set (total := sum_Z (map shares_sold (t0 :: rest))) in *.
  set (owned := shares_owned_after (List.last (t0 :: rest) t0)) in *.
  assert (Hr : inject_Z total / inject_Z (owned + total) <= 1).
  { apply Qle_shift_div_r.
    - rewrite <- (Zlt_Qlt 0). lia.
    - rewrite Qmult_1_l. rewrite <- Zle_Qle. lia. }
  lra.
Qed.

(** X5. On records that satisfy the data model, when the metrics phase
    completes the unweighted percentage lies in [0, 100] and the effective
    one in [0, 150]; a threshold above 150 then never fires: the call
    returns [None]. *)
Theorem percentage_bounds (now : string) (t0 : InsiderTransaction)
    (rest : list InsiderTransaction) (m : Metrics) :
  Forall wf_transaction (t0 :: rest) ->
  metrics t0 rest = ok m ->
  0 <= percentage_sold m <= 100 /\
  0 <= effective_percentage m <= 150 /\
  forall threshold, 150 < threshold ->
    detect_insider_selling_signal now (t0 :: rest) threshold = ok None.
Proof.
  intros Hwf Hm.
  pose proof (role_multiplier_ge_1 _ _ _ Hm) as H1.
  pose proof (role_multiplier_le_max _ _ _ Hm) as H2.
  pose proof (unweighted_percentage_nonneg _ Hwf) as Hlo.
  pose proof (unweighted_percentage_le_100 _ Hwf) as Hhi.
  destruct (metrics_percentage _ _ _ Hm) as [Hpct Heff].
  rewrite <- Hpct in Hlo, Hhi.
  assert (Hbounds : 0 <= effective_percentage m <= 150) by (rewrite Heff; nra).
  repeat split; try assumption; try apply Hbounds.
  intros threshold Hthr. apply detect_below with (m := m); [exact Hm | lra].
Qed.

Lemma percentage_bounds_witness :
  exists m,
    Forall wf_transaction sample_transactions /\
    metrics ceo_sale [cfo_sale] = ok m /\
    0 <= percentage_sold m <= 100 /\
    0 <= effective_percentage m <= 150 /\
    forall threshold, 150 < threshold ->
      detect_insider_selling_signal "now" sample_transactions threshold = ok None.
Proof.
  assert (Hwf : Forall wf_transaction sample_transactions).
  { repeat constructor; simpl; lia. }
  assert (H : exists m, metrics ceo_sale [cfo_sale] = ok m)
    by (eexists; vm_compute; reflexivity).
  destruct H as [m Hm]. exists m. split; [exact Hwf |]. split; [exact Hm |].
  exact (percentage_bounds "now" ceo_sale [cfo_sale] m Hwf Hm).
Defined.

(** X6. When the last record reports no remaining ownership and the
    metrics phase completes, the unweighted percentage is 0 whatever the
    total sold is, and no positive threshold fires: the call returns
    [None]. *)
Theorem sold_out_position_never_fires (now : string) (t0 : InsiderTransaction)
    (rest : list InsiderTransaction) (threshold : Q) (m : Metrics) :
  (shares_owned_after (List.last (t0 :: rest) t0) <= 0)%Z ->
  0 < threshold ->
  metrics t0 rest = ok m ->
  percentage_sold m = 0 /\
  effective_percentage m == 0 /\
  detect_insider_selling_signal now (t0 :: rest) threshold = ok None.
Proof.
  intros Ho Hthr Hm.
  assert (Hpct : percentage_sold m = 0).
  { apply metrics_inv in Hm as (_ & _ & _ & _ & -> & _).
    unfold unweighted_percentage. cbv zeta.
    destruct (Z.ltb_spec 0 (shares_owned_after (List.last (t0 :: rest) t0)));
      [lia | reflexivity]. }
  assert (Heff : effective_percentage m == 0).
  { destruct (metrics_percentage _ _ _ Hm) as [_ ->]. rewrite Hpct. lra. }
  split; [exact Hpct |]. split; [exact Heff |].
  apply detect_below with (m := m); [exact Hm | lra].
Qed.

Lemma sold_out_position_never_fires_witness :
  exists m,
    (shares_owned_after (List.last [sale "CEO" 100000 0] (sale "CEO" 100000 0)) <= 0)%Z /\
    0 < 40 /\
    metrics (sale "CEO" 100000 0) [] = ok m /\
    percentage_sold m = 0 /\
    effective_percentage m == 0 /\
    detect_insider_selling_signal "now" [sale "CEO" 100000 0] 40 = ok None.
Proof.
  assert (Ho : (shares_owned_after (List.last [sale "CEO" 100000 0] (sale "CEO" 100000 0))
                <= 0)%Z) by (simpl; lia).
  assert (Hthr : 0 < 40) by reflexivity.
  assert (H : exists m, metrics (sale "CEO" 100000 0) [] = ok m)
    by (eexists; vm_compute; reflexivity).
  destruct H as [m Hm]. exists m.
  split; [exact Ho |]. split; [exact Hthr |]. split; [exact Hm |].
  exact (sold_out_position_never_fires "now" (sale "CEO" 100000 0) [] 40 m Ho Hthr Hm).
Defined.

Lemma sum_Z_zero (l : list Z) : Forall (fun z => z = 0%Z) l -> sum_Z l = 0%Z.
Proof. induction 1 as [| z l Hz Hl IH]; simpl; lia. Qed.

Lemma sum_sold_zero (ts : list InsiderTransaction) :
  Forall (fun t => shares_sold t = 0%Z) ts -> sum_Z (map shares_sold ts) = 0%Z.
Proof. induction 1 as [| t ts Ht Hts IH]; simpl; lia. Qed.

Lemma detect_no_sales (now : string) (transactions : list InsiderTransaction)
    (threshold : Q) :
  Forall (fun t => shares_sold t = 0%Z) transactions ->
  0 < threshold ->
  detect_insider_selling_signal now transactions threshold = ok None.
Proof.
  intros Hzero Hthr. destruct transactions as [| t0 rest]; [reflexivity |].
  pose proof (sum_sold_zero _ Hzero) as Hsum.
  assert (Hm : exists m, metrics t0 rest = ok m /\ effective_percentage m == 0).
  { unfold metrics. cbv zeta. rewrite accumulate_total_sold, Hsum.
    destruct (Z.ltb_spec 0 (shares_owned_after (List.last (t0 :: rest) t0))) as [Ho | Ho].
    - rewrite int_truediv_ok by lia. cbn [bind ok]. eexists. split; [reflexivity |].
      cbn [effective_percentage]. unfold Qdiv. rewrite !Qmult_0_l. reflexivity.
    - cbn [bind ok]. eexists. split; [reflexivity |]. cbn. lra. }
  destruct Hm as (m & Hm & Heff).
  apply detect_below with (m := m); [exact Hm | lra].
Qed.

(** X7. When no record sells a share the percentage is 0 and no positive
    threshold fires, whatever the titles, the ownership and the dates. *)
Theorem no_sales_never_fires (now : string) (transactions : list InsiderTransaction)
    (threshold : Q) :
  Forall (fun t => shares_sold t = 0%Z) transactions ->
  0 < threshold ->
  detect_insider_selling_signal now transactions threshold = ok None.
Proof.
  apply detect_no_sales.
Qed.

Lemma no_sales_never_fires_witness :
  Forall (fun t => shares_sold t = 0%Z) [sale "CEO" 0 50000; sale "CFO" 0 20000] /\
  0 < 40 /\
  detect_insider_selling_signal "now" [sale "CEO" 0 50000; sale "CFO" 0 20000] 40
    = ok None.
Proof.
  assert (Hz : Forall (fun t => shares_sold t = 0%Z)
                 [sale "CEO" 0 50000; sale "CFO" 0 20000])
    by (repeat constructor).
  assert (Hthr : 0 < 40) by reflexivity.
  split; [exact Hz |]. split; [exact Hthr |].
  exact (no_sales_never_fires "now" _ 40 Hz Hthr).
Defined.

End MetricsProperties.

(** * Order of the records and the aggregate multiplier *)

Section OrderProperties.

Local Open Scope Q_scope.

Lemma sum_Z_perm (l l' : list Z) : Permutation l l' -> sum_Z l = sum_Z l'.
Proof.
  induction 1; simpl; lia.
Qed.

Lemma fold_Qmax_perm (l l' : list Q) :
  Permutation l l' -> forall a, fold_left Qmax l a == fold_left Qmax l' a.
Proof.
  induction 1 as [| x l l' _ IH | x y l | l l' l'' _ IH1 _ IH2]; intros a; simpl.
  - reflexivity.
  - apply IH.
  - apply fold_Qmax_compat.
    rewrite <- !Q.max_assoc. rewrite (Q.max_comm y x). reflexivity.
  - now rewrite IH1.
Qed.

(** The aggregate multiplier as a maximum over the records' weights. *)
Lemma fold_accumulate_multiplier (ts : list InsiderTransaction) (acc : Totals) :
  acc_role_multiplier (fold_left accumulate_step ts acc) ==
  fold_left Qmax (map (fun t => role_weight (title t)) ts) (acc_role_multiplier acc).
Proof.
  revert acc. induction ts as [| t ts IH]; intros acc; simpl.
  - reflexivity.
  - rewrite IH. apply fold_Qmax_compat. simpl. apply max_Qmax.
Qed.

(** The aggregate multiplier is the start of the loop or the weight of a record. *)
Lemma fold_accumulate_multiplier_origin (ts : list InsiderTransaction) (acc : Totals) :
  acc_role_multiplier (fold_left accumulate_step ts acc) = acc_role_multiplier acc \/
  exists t, In t ts /\
    acc_role_multiplier (fold_left accumulate_step ts acc) = role_weight (title t).
Proof.
  revert acc. induction ts as [| t ts IH]; intros acc; simpl.
  - now left.
  - destruct (IH (accumulate_step acc t)) as [Heq | (t' & Hin & Heq)].
    + rewrite Heq. simpl.
      destruct (max_cases (acc_role_multiplier acc) (role_weight (title t)))
        as [[-> _] | [-> _]]; [now left |].
      right. exists t. split; [now left | reflexivity].
    + right. exists t'. split; [now right | exact Heq].
Qed.

(** X8. The aggregate role multiplier of a call is the largest weight
    resolved for any of its records: it bounds each of them and is the
    weight of one of them. *)
Theorem role_multiplier_is_max_weight (t0 : InsiderTransaction)
    (rest : list InsiderTransaction) (m : Metrics) :
  metrics t0 rest = ok m ->
  (forall t, In t (t0 :: rest) -> role_weight (title t) <= role_multiplier m) /\
  (exists t, In t (t0 :: rest) /\ role_multiplier m == role_weight (title t)).
Proof.
  intros Hm. apply metrics_inv in Hm as (_ & _ & -> & _). split.
  - intros t Hin. unfold accumulate. now apply fold_accumulate_multiplier_dominates.
  - unfold accumulate.
    destruct (fold_accumulate_multiplier_origin (t0 :: rest)
                {| acc_total_sold := 0; acc_total_bought := 0;
                   acc_weighted_sold := 0; acc_role_multiplier := 1.0 |})
      as [Heq | (t & Hin & Heq)].
    + exists t0. split; [now left |].
      pose proof (fold_accumulate_multiplier_dominates (t0 :: rest)
                    {| acc_total_sold := 0; acc_total_bought := 0;
                       acc_weighted_sold := 0; acc_role_multiplier := 1.0 |}
                    t0 ltac:(now left)) as Hle.
      rewrite Heq in *. cbn [acc_role_multiplier] in *.
      pose proof (role_weight_ge_1 (title t0)). apply Qle_antisym; lra.
    + exists t. split; [exact Hin |]. rewrite Heq. reflexivity.
Qed.

Lemma role_multiplier_is_max_weight_witness :
  exists m,
    metrics ceo_sale [cfo_sale] = ok m /\
    (forall t, In t [ceo_sale; cfo_sale] -> role_weight (title t) <= role_multiplier m) /\
    (exists t, In t [ceo_sale; cfo_sale] /\ role_multiplier m == role_weight (title t)).
Proof.
  assert (H : exists m, metrics ceo_sale [cfo_sale] = ok m)
    by (eexists; vm_compute; reflexivity).
  destruct H as [m Hm]. exists m. split; [exact Hm |].
  exact (role_multiplier_is_max_weight ceo_sale [cfo_sale] m Hm).
Defined.

(** X9. Reordering the records while the last one still reports the same
    remaining ownership changes neither the totals nor the percentages nor
    the multiplier, and so not the firing decision either. *)
Theorem metrics_reorder (t0 t0' : InsiderTransaction)
    (rest rest' : list InsiderTransaction) (m : Metrics) :
  Permutation (t0 :: rest) (t0' :: rest') ->
  shares_owned_after (List.last (t0 :: rest) t0) =
  shares_owned_after (List.last (t0' :: rest') t0') ->
  metrics t0 rest = ok m ->
  exists m',
    metrics t0' rest' = ok m' /\
    total_sold m' = total_sold m /\
    total_bought m' = total_bought m /\
    percentage_sold m' = percentage_sold m /\
    role_multiplier m' == role_multiplier m /\
    effective_percentage m' == effective_percentage m /\
    forall threshold,
      Qle_bool threshold (effective_percentage m') =
      Qle_bool threshold (effective_percentage m).
Proof.
  intros Hperm Hlast Hm.
  assert (Hsold : sum_Z (map shares_sold (t0' :: rest')) = sum_Z (map shares_sold (t0 :: rest))).
  { symmetry. apply sum_Z_perm. now apply Permutation_map. }
  assert (Hbought : sum_Z (map shares_bought (t0' :: rest'))
                    = sum_Z (map shares_bought (t0 :: rest))).
  { symmetry. apply sum_Z_perm. now apply Permutation_map. }
  assert (Hm' : exists m', metrics t0' rest' = ok m').
  { revert Hm. unfold metrics. cbv zeta.
    rewrite !accumulate_total_sold, Hsold, <- Hlast.
    destruct (0 <? shares_owned_after (List.last (t0 :: rest) t0))%Z;
      [| intros _; cbn [bind ok]; now eexists].
    unfold Py.int_truediv.
    destruct (_ =? 0)%Z; [discriminate |]. intros _. cbn [bind ok]. now eexists. }
  destruct Hm' as [m' Hm']. exists m'. split; [exact Hm' |].
  apply metrics_inv in Hm as (Hts & Htb & Hrm & _ & Hpct & Heff).
  apply metrics_inv in Hm' as (Hts' & Htb' & Hrm' & _ & Hpct' & Heff').
  assert (Epct : percentage_sold m' = percentage_sold m).
  { rewrite Hpct, Hpct'. unfold unweighted_percentage. cbv zeta.
    now rewrite Hsold, Hlast. }
  assert (Erm : role_multiplier m' == role_multiplier m).
  { rewrite Hrm, Hrm'. unfold accumulate. rewrite !fold_accumulate_multiplier.
    apply fold_Qmax_perm. apply Permutation_map. now symmetry. }
  assert (Eeff : effective_percentage m' == effective_percentage m).
  { rewrite Heff, Heff', Epct, Erm. reflexivity. }
  repeat split; try congruence; try assumption.
  intros threshold.
  destruct (Qle_bool threshold (effective_percentage m)) eqn:E.
  - apply Qle_bool_iff. apply Qle_bool_iff in E. now rewrite Eeff.
  - apply not_true_iff_false. intros E'. apply Qle_bool_iff in E'.
    rewrite Eeff in E'. apply Qle_bool_iff in E'. congruence.
Qed.

Lemma metrics_reorder_witness :
  exists m m',
    Permutation [ceo_sale; sale "Director" 10 50; cfo_sale]
                [sale "Director" 10 50; ceo_sale; cfo_sale] /\
    metrics ceo_sale [sale "Director" 10 50; cfo_sale] = ok m /\
    metrics (sale "Director" 10 50) [ceo_sale; cfo_sale] = ok m' /\
    total_sold m' = total_sold m /\
    total_bought m' = total_bought m /\
    percentage_sold m' = percentage_sold m /\
    role_multiplier m' == role_multiplier m /\
    effective_percentage m' == effective_percentage m /\
    forall threshold,
      Qle_bool threshold (effective_percentage m') =
      Qle_bool threshold (effective_percentage m).
Proof.
  assert (Hperm : Permutation [ceo_sale; sale "Director" 10 50; cfo_sale]
                              [sale "Director" 10 50; ceo_sale; cfo_sale])
    by apply perm_swap.
  assert (H : exists m, metrics ceo_sale [sale "Director" 10 50; cfo_sale] = ok m)
    by (eexists; vm_compute; reflexivity).
  destruct H as [m Hm].
  destruct (metrics_reorder ceo_sale (sale "Director" 10 50)
              [sale "Director" 10 50; cfo_sale] [ceo_sale; cfo_sale] m
              Hperm eq_refl Hm) as (m' & Hm' & Hrest).
  exists m, m'. split; [exact Hperm |]. split; [exact Hm |]. split; [exact Hm' |].
  exact Hrest.
Defined.

End OrderProperties.

(** * Further properties of a detection call *)

Section DetectProperties.

Local Open Scope Q_scope.

Lemma unique_insiders_le_length (ts : list InsiderTransaction) :
  (unique_insiders ts <= Z.of_nat (length ts))%Z.
Proof.
  unfold unique_insiders. apply inj_le.
  induction ts as [| t ts IH]; [reflexivity |].
  cbn [map length]. rewrite list_to_set_cons, size_union_alt, size_singleton.
  apply le_n_S. etransitivity; [| exact IH].
  apply subseteq_size. intros x Hx. now apply elem_of_difference in Hx as [Hx _].
Qed.

(** X11. With a zero threshold every call that reaches the threshold and
    whose dates parse raises [ZeroDivisionError]; no call with a zero
    threshold returns a record. *)
Theorem zero_threshold_raises (now : string) (t0 : InsiderTransaction)
    (rest : list InsiderTransaction) (threshold : Q) (m : Metrics) (dates : list Z) :
  threshold == 0 ->
  metrics t0 rest = ok m ->
  0 <= effective_percentage m ->
  mapM Datetime.fromisoformat (map transaction_date (t0 :: rest)) = ok dates ->
  detect_insider_selling_signal now (t0 :: rest) threshold = raise ZeroDivisionError.
Proof.
  intros Hz Hm Hfire Hdates. unfold detect_insider_selling_signal.
  rewrite Hm. cbn [bind ok].
  assert (Hle : Qle_bool threshold (effective_percentage m) = true).
  { apply Qle_bool_iff. now rewrite Hz. }
  rewrite Hle, Hdates. cbn [bind ok].
  destruct (clustering_total dates) as [[b dr] ->]. cbn [bind ok].
  now rewrite calculate_confidence_zero.
Qed.

Lemma zero_threshold_raises_witness :
  exists m dates,
    0 == 0 /\
    metrics ceo_sale [cfo_sale] = ok m /\
    0 <= effective_percentage m /\
    mapM Datetime.fromisoformat (map transaction_date sample_transactions) = ok dates /\
    detect_insider_selling_signal "now" sample_transactions 0 = raise ZeroDivisionError.
Proof.
  assert (H : exists m dates,
    metrics ceo_sale [cfo_sale] = ok m /\
    0 <= effective_percentage m /\
    mapM Datetime.fromisoformat (map transaction_date sample_transactions) = ok dates).
  { do 2 eexists. evaluate_each. }
  destruct H as (m & dates & Hm & Hfire & Hdates).
  exists m, dates. split; [reflexivity |]. split; [exact Hm |]. split; [exact Hfire |].
  split; [exact Hdates |].
  exact (zero_threshold_raises "now" ceo_sale [cfo_sale] 0 m dates
           (Qeq_refl 0) Hm Hfire Hdates).
Defined.

(** X12. Every returned record says that the threshold was exceeded, repeats
    the threshold and the totals of the input, counts at least one and at
    most as many unique insiders as transactions, reports a date range that
    is not negative, and reports a clustering verdict exactly when there are
    at least two transactions. *)
Theorem signal_record_invariants (now : string) (transactions : list InsiderTransaction)
    (threshold : Q) (s : InsiderSignal) :
  detect_insider_selling_signal now transactions threshold = ok (Some s) ->
  threshold_exceeded s = true /\
  signal_type s = "INSIDER_SELLING" /\
  d_threshold (details s) = threshold /\
  d_total_shares_sold (details s) = sum_Z (map shares_sold transactions) /\
  d_total_shares_bought (details s) = sum_Z (map shares_bought transactions) /\
  d_num_transactions (details s) = Z.of_nat (length transactions) /\
  (1 <= d_num_unique_insiders (details s) <= d_num_transactions (details s))%Z /\
  (0 <= d_date_range_days (details s))%Z /\
  (d_time_clustered (details s) = None <-> length transactions = 1%nat).
Proof.
  intros H. apply detect_fires_inv in H
    as (t0 & rest & m & dates & b & dr & c & -> & Hm & _ & Hdates & Hcl & _ & ->).
  apply metrics_inv in Hm as (Hts & Htb & _).
  pose proof (mapM_length _ _ _ Hdates) as Hlen. rewrite length_map in Hlen.
  cbn [threshold_exceeded signal_type details signal_of d_threshold d_total_shares_sold
       d_total_shares_bought d_num_transactions d_num_unique_insiders
       d_date_range_days d_time_clustered].
  repeat split; try assumption.
  - apply unique_insiders_pos.
  - apply unique_insiders_le_length.
  - destruct (Z.ltb_spec 1 (Z.of_nat (length dates))) as [Hmany | Hfew]; [| lia].
    destruct (clustering_many dates ltac:(lia)) as (span & Hspan & Hcl').
    rewrite Hcl' in Hcl. injection Hcl as <- <-. cbn.
    destruct Hspan as (latest & earliest & Hl & _ & Hall & ->).
    pose proof (Hall latest Hl). lia.
  - destruct (Z.ltb_spec 1 (Z.of_nat (length dates))) as [Hmany | Hfew];
      [discriminate |]. intros _. rewrite <- Hlen. simpl in *. lia.
  - intros Hone. rewrite <- Hlen in Hone.
    destruct (Z.ltb_spec 1 (Z.of_nat (length dates))) as [Hmany | Hfew];
      [lia | reflexivity].
Qed.

Lemma signal_record_invariants_witness :
  exists s,
    detect_insider_selling_signal "now" sample_transactions 40 = ok (Some s) /\
    threshold_exceeded s = true /\
    signal_type s = "INSIDER_SELLING" /\
    d_threshold (details s) = 40 /\
    d_total_shares_sold (details s) = sum_Z (map shares_sold sample_transactions) /\
    d_total_shares_bought (details s) = sum_Z (map shares_bought sample_transactions) /\
    d_num_transactions (details s) = Z.of_nat (length sample_transactions) /\
    (1 <= d_num_unique_insiders (details s) <= d_num_transactions (details s))%Z /\
    (0 <= d_date_range_days (details s))%Z /\
    (d_time_clustered (details s) = None <-> length sample_transactions = 1%nat).
Proof.
  eexists. split; [vm_compute; reflexivity |].
  apply (signal_record_invariants "now" sample_transactions 40).
  vm_compute. reflexivity.
Defined.

End DetectProperties.

(** * Further properties of the confidence score *)

Section ConfidenceProperties.

Local Open Scope Q_scope.

Lemma min_mono_l (a a' c : Q) : a <= a' -> Py.min a c <= Py.min a' c.
Proof.
  intros H. apply min_glb.
  - eapply Qle_trans; [apply min_le_l | exact H].
  - apply min_le_r.
Qed.

Lemma min_saturated (a : Q) : 1 <= a -> Py.min a 1.0 == 1.
Proof.
  intros H. destruct (min_cases a 1.0) as [[-> Hle] | [-> _]]; lra.
Qed.

(** X13. On a positive threshold every returned confidence is strictly
    positive and at most 0.99. *)
Theorem confidence_positive_threshold (now : string)
    (transactions : list InsiderTransaction) (threshold : Q) (s : InsiderSignal) :
  0 < threshold ->
  detect_insider_selling_signal now transactions threshold = ok (Some s) ->
  0 < confidence s /\ confidence s <= 0.99.
Proof.
  apply confidence_bounds_positive_threshold.
Qed.

Lemma confidence_positive_threshold_witness :
  exists s,
    0 < 40 /\
    detect_insider_selling_signal "now" sample_transactions 40 = ok (Some s) /\
    0 < confidence s /\ confidence s <= 0.99.
Proof.
  eexists.
  assert (Hthr : 0 < 40) by reflexivity.
  assert (H : detect_insider_selling_signal "now" sample_transactions 40 = ok (Some _))
    by (vm_compute; reflexivity).
  split; [exact Hthr |]. split; [exact H |].
  exact (confidence_positive_threshold "now" sample_transactions 40 _ Hthr H).
Defined.

(** X14. On a positive threshold the score never decreases when the
    percentage sold grows, when more unique insiders sell, when the sales
    become clustered, or when the role multiplier grows. *)
Theorem confidence_monotone (pct pct' threshold : Q) (n n' : Z) (b b' : bool)
    (rm rm' c c' : Q) :
  0 < threshold ->
  pct <= pct' -> (n <= n')%Z -> (b = true -> b' = true) -> rm <= rm' ->
  _calculate_confidence pct threshold n b rm = ok c ->
  _calculate_confidence pct' threshold n' b' rm' = ok c' ->
  c <= c'.
Proof.
  intros Hthr Hpct Hn Hb Hrm Hc Hc'.
  apply calculate_confidence_inv in Hc as (f & Hf & ->).
  apply calculate_confidence_inv in Hc' as (f' & Hf' & ->).
  apply confidence_factors_inv in Hf as (_ & Ht & Hi & Hcl & Hr).
  apply confidence_factors_inv in Hf' as (_ & Ht' & Hi' & Hcl' & Hr').
  apply min_mono_l. unfold weighted_combination.
  assert (H1 : threshold_factor f <= threshold_factor f').
  { rewrite Ht, Ht'. apply min_mono_l.
    assert (pct / threshold <= pct' / threshold).
    { unfold Qdiv. apply Qmult_le_compat_r; [exact Hpct |].
      apply Qlt_le_weak, Qinv_lt_0_compat, Hthr. }
    lra. }
  assert (H2 : insider_factor f <= insider_factor f').
  { rewrite Hi, Hi'. apply min_mono_l.
    unfold Qdiv. apply Qmult_le_compat_r; [now rewrite <- Zle_Qle | vm_compute; discriminate]. }
  assert (H3 : cluster_factor f <= cluster_factor f').
  { rewrite Hcl, Hcl'. destruct b, b'; try (vm_compute; discriminate).
    specialize (Hb eq_refl). discriminate. }
  assert (H4 : role_factor f <= role_factor f').
  { rewrite Hr, Hr'. apply min_mono_l.
    unfold Qdiv. apply Qmult_le_compat_r; [lra | vm_compute; discriminate]. }
  lra.
Qed.

Lemma confidence_monotone_witness :
  exists c c',
    0 < 40 /\ 50 <= 60 /\ (1 <= 2)%Z /\ (false = true -> true = true) /\ 1.2 <= 1.5 /\
    _calculate_confidence 50 40 1 false 1.2 = ok c /\
    _calculate_confidence 60 40 2 true 1.5 = ok c' /\
    c <= c'.
Proof.
  assert (H : exists c c',
    _calculate_confidence 50 40 1 false 1.2 = ok c /\
    _calculate_confidence 60 40 2 true 1.5 = ok c').
  { do 2 eexists. evaluate_each. }
  destruct H as (c & c' & Hc & Hc').
  assert (H1 : 0 < 40) by reflexivity.
  assert (H2 : 50 <= 60) by (vm_compute; discriminate).
  assert (H3 : (1 <= 2)%Z) by lia.
  assert (H4 : false = true -> true = true) by (intros _; reflexivity).
  assert (H5 : 1.2 <= 1.5) by (vm_compute; discriminate).
  exists c, c'. repeat (split; [assumption |]).
  exact (confidence_monotone 50 60 40 1 2 false true 1.2 1.5 c c' H1 H2 H3 H4 H5 Hc Hc').
Defined.

(** X15. When the percentage sold is at least twice a positive threshold,
    at least three unique insiders sell, the sales are clustered and the
    role multiplier is at least 1.5, the score is 0.99 exactly. *)
Theorem confidence_saturates (pct threshold : Q) (n : Z) (rm : Q) :
  0 < threshold -> 2 * threshold <= pct -> (3 <= n)%Z -> 1.5 <= rm ->
  exists c, _calculate_confidence pct threshold n true rm = ok c /\ c == 0.99.
Proof.
  intros Hthr Hpct Hn Hrm.
  unfold _calculate_confidence. rewrite confidence_factors_ok by lra. cbn [bind ok].
  eexists. split; [reflexivity |].
  unfold weighted_combination. cbn [threshold_factor insider_factor cluster_factor role_factor].
  assert (Ht : Py.min (pct / threshold - 1.0) 1.0 == 1).
  { apply min_saturated.
    assert (2 <= pct / threshold) by (apply Qle_shift_div_l; lra). lra. }
  assert (Hi : Py.min (inject_Z n / 3.0) 1.0 == 1).
  { apply min_saturated. apply Qle_shift_div_l; [reflexivity |].
    assert (E : 1 * 3.0 == inject_Z 3) by reflexivity. rewrite E. now rewrite <- Zle_Qle. }
  assert (Hr : Py.min ((rm - 0.7) / 0.8) 1.0 == 1).
  { apply min_saturated. apply Qle_shift_div_l; [reflexivity | lra]. }
  rewrite min_Qmin, Ht, Hi, Hr. reflexivity.
Qed.

Lemma confidence_saturates_witness :
  0 < 40 /\ 2 * 40 <= 90 /\ (3 <= 5)%Z /\ 1.5 <= 1.5 /\
  exists c, _calculate_confidence 90 40 5 true 1.5 = ok c /\ c == 0.99.
Proof.
  assert (H1 : 0 < 40) by reflexivity.
  assert (H2 : 2 * 40 <= 90) by (vm_compute; discriminate).
  assert (H3 : (3 <= 5)%Z) by lia.
  assert (H4 : 1.5 <= 1.5) by (vm_compute; discriminate).
  repeat (split; [assumption |]).
  exact (confidence_saturates 90 40 5 1.5 H1 H2 H3 H4).
Defined.

(** X16. A record returned for a single transaction has confidence at most
    0.725, and reports no clustering verdict. *)
Theorem single_transaction_confidence_cap (now : string) (t : InsiderTransaction)
    (threshold : Q) (s : InsiderSignal) :
  detect_insider_selling_signal now [t] threshold = ok (Some s) ->
  confidence s <= 0.725 /\ d_time_clustered (details s) = None.
Proof.
  intros H. apply detect_fires_inv in H
    as (t0 & rest & m & dates & b & dr & c & [= <- <-] & Hm & _ & Hdates & Hcl & Hc & ->).
  pose proof (mapM_length _ _ _ Hdates) as Hlen. rewrite length_map in Hlen.
  rewrite clustering_few in Hcl by (rewrite Hlen; simpl; lia). injection Hcl as <- <-.
  cbn [confidence details signal_of d_time_clustered]. split.
  - assert (Hn : unique_insiders [t] = 1%Z).
    { pose proof (unique_insiders_pos t []). pose proof (unique_insiders_le_length [t]).
      simpl in *. lia. }
    rewrite Hn in Hc.
    apply calculate_confidence_inv in Hc as (f & Hf & ->).
    apply confidence_factors_inv in Hf as (_ & Ht & Hi & Hcf & Hr).
    eapply Qle_trans; [apply min_le_l |].
    unfold weighted_combination. rewrite Ht, Hi, Hcf, Hr.
    pose proof (min_le_r (percentage_sold m / threshold - 1.0) 1.0).
    assert (Hi1 : Py.min (inject_Z 1 / 3.0) 1.0 <= 1 # 3).
    { eapply Qle_trans; [apply min_le_l |]. vm_compute. discriminate. }
    pose proof (min_le_r ((role_multiplier m - 0.7) / 0.8) 1.0).
    lra.
  - destruct (Z.ltb_spec 1 (Z.of_nat (length dates))); [simpl in *; lia | reflexivity].
Qed.

Lemma single_transaction_confidence_cap_witness :
  exists s,
    detect_insider_selling_signal "now" [sale "CEO" 90000 10000] 40 = ok (Some s) /\
    confidence s <= 0.725 /\ d_time_clustered (details s) = None.
Proof.
  eexists. split; [vm_compute; reflexivity |].
  apply (single_transaction_confidence_cap "now" (sale "CEO" 90000 10000) 40).
  vm_compute. reflexivity.
Defined.

(** X17. On a positive threshold, for a call that fires, the
    threshold-distance factor lies in [-1/3, 1], it is not negative when the
    unweighted percentage itself reaches the threshold, and the three other
    factors lie in [0, 1]. *)
Theorem factor_ranges (t0 : InsiderTransaction) (rest : list InsiderTransaction)
    (threshold : Q) (m : Metrics) (b : bool) (f : Factors) :
  0 < threshold ->
  metrics t0 rest = ok m ->
  threshold <= effective_percentage m ->
  confidence_factors (percentage_sold m) threshold (unique_insiders (t0 :: rest)) b
    (role_multiplier m) = ok f ->
  (- (1 # 3) <= threshold_factor f <= 1) /\
  (threshold <= percentage_sold m -> 0 <= threshold_factor f) /\
  (0 <= insider_factor f <= 1) /\
  (0 <= cluster_factor f <= 1) /\
  (0 <= role_factor f <= 1).
Proof.
  intros Hthr Hm Hfire Hf.
  pose proof (role_multiplier_ge_1 _ _ _ Hm) as H1.
  pose proof (role_multiplier_le_max _ _ _ Hm) as H2.
  destruct (metrics_percentage _ _ _ Hm) as [_ Heff]. rewrite Heff in Hfire.
  destruct (factors_bounds _ _ _ _ _ _ Hthr Hfire H1 H2 (unique_insiders_pos t0 rest) Hf)
    as (Ht & Hi & Hc & Hr).
  repeat split; try apply Ht; try apply Hi; try apply Hc; try apply Hr.
  intros Hge. apply confidence_factors_inv in Hf as (_ & -> & _).
  apply min_glb; [| vm_compute; discriminate].
  assert (1 <= percentage_sold m / threshold) by (apply Qle_shift_div_l; lra). lra.
Qed.

Lemma factor_ranges_witness :
  exists m f,
    0 < 40 /\
    metrics (sale "CEO" 30000 70000) [] = ok m /\
    40 <= effective_percentage m /\
    confidence_factors (percentage_sold m) 40 (unique_insiders [sale "CEO" 30000 70000])
      false (role_multiplier m) = ok f /\
    (- (1 # 3) <= threshold_factor f <= 1) /\
    (40 <= percentage_sold m -> 0 <= threshold_factor f) /\
    (0 <= insider_factor f <= 1) /\
    (0 <= cluster_factor f <= 1) /\
    (0 <= role_factor f <= 1).
Proof.
  assert (H : exists m f,
    metrics (sale "CEO" 30000 70000) [] = ok m /\
    40 <= effective_percentage m /\
    confidence_factors (percentage_sold m) 40 (unique_insiders [sale "CEO" 30000 70000])
      false (role_multiplier m) = ok f).
  { do 2 eexists. evaluate_each. }
  destruct H as (m & f & Hm & Hfire & Hf).
  assert (Hthr : 0 < 40) by reflexivity.
  exists m, f. split; [exact Hthr |]. split; [exact Hm |]. split; [exact Hfire |].
  split; [exact Hf |].
  exact (factor_ranges (sale "CEO" 30000 70000) [] 40 m false f Hthr Hm Hfire Hf).
Defined.

(** X18. Between two single-record inputs that differ in the role title
    only, with a positive unweighted percentage, the title the detector
    resolves to the strictly higher weight gives the strictly greater
    effective percentage. *)
Theorem resolved_weight_monotone (t : InsiderTransaction) (role_title : string)
    (m m' : Metrics) :
  metrics t [] = ok m -> metrics (with_title t role_title) [] = ok m' ->
  0 < percentage_sold m ->
  role_weight (title t) < role_weight role_title ->
  effective_percentage m < effective_percentage m'.
Proof.
  apply effective_percentage_monotone.
Qed.

Lemma resolved_weight_monotone_witness :
  exists m m',
    metrics (sale "Director" 100000 150000) [] = ok m /\
    metrics (with_title (sale "Director" 100000 150000) "Chief Executive Officer") []
      = ok m' /\
    0 < percentage_sold m /\
    role_weight (title (sale "Director" 100000 150000))
      < role_weight "Chief Executive Officer" /\
    effective_percentage m < effective_percentage m'.
Proof.
  assert (H : exists m m',
    metrics (sale "Director" 100000 150000) [] = ok m /\
    metrics (with_title (sale "Director" 100000 150000) "Chief Executive Officer") []
      = ok m' /\
    0 < percentage_sold m /\
    role_weight (title (sale "Director" 100000 150000))
      < role_weight "Chief Executive Officer").
  { do 2 eexists. evaluate_each. }
  destruct H as (m & m' & Hm & Hm' & Hpos & Hlt).
  exists m, m'. split; [exact Hm |]. split; [exact Hm' |]. split; [exact Hpos |].
  split; [exact Hlt |].
  exact (resolved_weight_monotone _ _ m m' Hm Hm' Hpos Hlt).
Defined.

End ConfidenceProperties.

(** * The filing hash as bytes *)

Section HashProperties.

(** The hash of the test suite: both halves are non-zero and the layout has
    32 bytes. *)
Example test_filing_hash_no_truncation :
  0 < Z.shiftr sample_filing_hash 128 /\
  0 < Z.land sample_filing_hash (Z.shiftl 1 128 - 1) /\
  exists bs, combined_bytes sample_filing_hash = inr bs /\ length bs = 32%nat.
Proof.
  split; [reflexivity |]. split; [reflexivity |]. eexists. split; reflexivity.
Qed.

(** X19. The conversion of the hash to bytes succeeds exactly for a hash
    in [0, 2^256); for a negative or a longer one it raises
    [OverflowError]. *)
Theorem combined_bytes_domain (filing_hash_int : Z) :
  (0 <= filing_hash_int < 2 ^ 256 /\
   exists bs, combined_bytes filing_hash_int = inr bs) \/
  ((filing_hash_int < 0 \/ 2 ^ 256 <= filing_hash_int) /\
   combined_bytes filing_hash_int = inl OverflowError).
Proof.
  destruct (Z_lt_le_dec filing_hash_int 0) as [Hneg | Hpos].
  - right. split; [now left |]. apply combined_bytes_overflow. now left.
  - destruct (Z_lt_le_dec filing_hash_int (2 ^ 256)) as [Hsmall | Hbig].
    + left. split; [lia |]. rewrite combined_bytes_ok by lia.
      rewrite to_bytes_ok by (rewrite pow256_32; change (2 ^ 256) with (2 ^ 128 * 2 ^ 128) in Hsmall; lia).
      now eexists.
    + right. split; [now right |]. apply combined_bytes_overflow. now right.
Qed.

Lemma combined_bytes_inv (h : Z) (bs : list Byte.byte) :
  combined_bytes h = inr bs ->
  0 <= h < 2 ^ 256 /\ Int.to_bytes h 32 = inr bs.
Proof.
  intros H. destruct (combined_bytes_domain h) as [[Hr _] | [_ Herr]].
  - split; [exact Hr |]. now rewrite <- combined_bytes_ok.
  - rewrite Herr in H. discriminate.
Qed.

(** X20. Nothing of the hash is lost: the 32 bytes handed to keccak are the
    big-endian layout of the whole hash, they decode back to it, and two
    hashes with the same bytes are equal. *)
Theorem combined_bytes_round_trip (filing_hash_int : Z) (bs : list Byte.byte) :
  combined_bytes filing_hash_int = inr bs ->
  length bs = 32%nat /\
  Int.to_bytes filing_hash_int 32 = inr bs /\
  Int.from_bytes bs = filing_hash_int /\
  forall other, combined_bytes other = inr bs -> other = filing_hash_int.
Proof.
  intros H. apply combined_bytes_inv in H as [Hr Hb].
  assert (Hdecode : forall h, 0 <= h < 2 ^ 256 -> Int.to_bytes h 32 = inr bs ->
                              Int.from_bytes bs = h).
  { intros h Hh Hto. apply to_bytes_inv in Hto as [_ ->].
    rewrite from_bytes_to_bytes_le. apply Z.mod_small.
    rewrite pow256_32. change (2 ^ 256) with (2 ^ 128 * 2 ^ 128) in Hh. lia. }
  repeat split.
  - apply to_bytes_inv in Hb as [_ ->]. rewrite length_rev. apply to_bytes_le_length.
  - exact Hb.
  - now apply Hdecode.
  - intros other Ho. apply combined_bytes_inv in Ho as [Hr' Hb'].
    rewrite <- (Hdecode other Hr' Hb'). now apply Hdecode.
Qed.

Lemma combined_bytes_round_trip_witness :
  exists bs,
    combined_bytes sample_filing_hash = inr bs /\
    length bs = 32%nat /\
    Int.to_bytes sample_filing_hash 32 = inr bs /\
    Int.from_bytes bs = sample_filing_hash /\
    forall other, combined_bytes other = inr bs -> other = sample_filing_hash.
Proof.
  eexists. split; [vm_compute; reflexivity |].
  apply (combined_bytes_round_trip sample_filing_hash).
  vm_compute. reflexivity.
Defined.

(** X21. The field element is the keccak digest of those 32 bytes reduced
    modulo the BN254 field modulus, so it lies in [0, modulus); a hash out
    of range yields no field element. *)
Theorem filing_hash_field_range (keccak : list Byte.byte -> list Byte.byte)
    (filing_hash_int field : Z) :
  filing_hash_field keccak filing_hash_int = inr field ->
  0 <= filing_hash_int < 2 ^ 256 /\
  0 <= field < BN254_FIELD_MODULUS /\
  exists bs,
    Int.to_bytes filing_hash_int 32 = inr bs /\
    field = Int.from_bytes (keccak bs) mod BN254_FIELD_MODULUS.
Proof.
  unfold filing_hash_field. destruct (combined_bytes filing_hash_int) as [e | bs] eqn:E;
    [discriminate |].
  intros [= <-]. apply combined_bytes_inv in E as [Hr Hb].
  split; [exact Hr |]. split.
  - apply Z.mod_pos_bound. reflexivity.
  - now exists bs.
Qed.

Lemma filing_hash_field_range_witness :
  exists field,
    filing_hash_field (fun bs => bs) sample_filing_hash = inr field /\
    0 <= sample_filing_hash < 2 ^ 256 /\
    0 <= field < BN254_FIELD_MODULUS /\
    exists bs,
      Int.to_bytes sample_filing_hash 32 = inr bs /\
      field = Int.from_bytes ((fun bs => bs) bs) mod BN254_FIELD_MODULUS.
Proof.
  eexists. split; [vm_compute; reflexivity |].
  apply (filing_hash_field_range (fun bs => bs) sample_filing_hash).
  vm_compute. reflexivity.
Defined.

End HashProperties.

(** * Form 4 parsing *)

Section ParseProperties.

Local Open Scope Q_scope.

Variables reportingOwnerName reportingOwnerTitle : option string.

Lemma parse_loop_acc (elements : list Form4Transaction) (acc : list InsiderTransaction) :
  parse_loop reportingOwnerName reportingOwnerTitle elements acc =
  (acc ++ parse_loop reportingOwnerName reportingOwnerTitle elements [])%list.
Proof.
  revert acc. induction elements as [| e elements IH]; intros acc.
  - simpl. now rewrite app_nil_r.
  - cbn [parse_loop].
    destruct (transactionDate e) as [[date |] |], (transactionCode e) as [[code |] |],
      (transactionShares e) as [[n |] |],
      (sharesOwnedFollowingTransaction e) as [[owned |] |];
      try (now rewrite app_nil_r); try apply IH.
    rewrite IH, (IH (app [] _)). now rewrite <- app_assoc.
Qed.

(** One step of the loop, by the kind of element met. *)
Lemma parse_loop_skip (e : Form4Transaction) (elements : list Form4Transaction) :
  complete e = false ->
  parse_loop reportingOwnerName reportingOwnerTitle (e :: elements) [] =
  parse_loop reportingOwnerName reportingOwnerTitle elements [].
Proof.
  unfold complete. cbn [parse_loop].
  destruct (transactionDate e) as [[date |] |], (transactionCode e) as [[code |] |],
    (transactionShares e) as [[n |] |],
    (sharesOwnedFollowingTransaction e) as [[owned |] |]; try discriminate; reflexivity.
Qed.

Lemma parse_loop_raise (e : Form4Transaction) (elements : list Form4Transaction) :
  raising e = true ->
  parse_loop reportingOwnerName reportingOwnerTitle (e :: elements) [] = [].
Proof.
  unfold raising. cbn [parse_loop].
  destruct (transactionDate e) as [[date |] |], (transactionCode e) as [[code |] |],
    (transactionShares e) as [[n |] |],
    (sharesOwnedFollowingTransaction e) as [[owned |] |]; try discriminate; reflexivity.
Qed.

Lemma parse_loop_append (e : Form4Transaction) (elements : list Form4Transaction) :
  complete e = true -> raising e = false ->
  exists date code n owned,
    transactionDate e = Some (Some date) /\ transactionCode e = Some (Some code) /\
    transactionShares e = Some (Some n) /\
    sharesOwnedFollowingTransaction e = Some (Some owned) /\
    parse_loop reportingOwnerName reportingOwnerTitle (e :: elements) [] =
    build_transaction reportingOwnerName reportingOwnerTitle date code n owned
    :: parse_loop reportingOwnerName reportingOwnerTitle elements [].
Proof.
  unfold complete, raising. cbn [parse_loop].
  destruct (transactionDate e) as [[date |] |], (transactionCode e) as [[code |] |],
    (transactionShares e) as [[n |] |],
    (sharesOwnedFollowingTransaction e) as [[owned |] |]; try discriminate.
  intros _ _. exists date, code, n, owned. repeat split. apply parse_loop_acc.
Qed.

Lemma complete_or_not (e : Form4Transaction) :
  complete e = false \/ raising e = true \/ (complete e = true /\ raising e = false).
Proof.
  unfold complete, raising.
  destruct (transactionDate e) as [[date |] |], (transactionCode e) as [[code |] |],
    (transactionShares e) as [[n |] |],
    (sharesOwnedFollowingTransaction e) as [[owned |] |]; auto.
Qed.

(** Every parsed record is built from one element of the filing. *)
Lemma parsed_origin (elements : list Form4Transaction) (t : InsiderTransaction) :
  In t (parse_form4_transactions reportingOwnerName reportingOwnerTitle elements) ->
  exists e date code n owned,
    In e elements /\
    transactionDate e = Some (Some date) /\ transactionCode e = Some (Some code) /\
    transactionShares e = Some (Some n) /\
    sharesOwnedFollowingTransaction e = Some (Some owned) /\
    t = build_transaction reportingOwnerName reportingOwnerTitle date code n owned.
Proof.
  unfold parse_form4_transactions.
  induction elements as [| e elements IH]; intros Hin; [destruct Hin |].
  assert (Hlater : In t (parse_loop reportingOwnerName reportingOwnerTitle elements []) ->
    exists e' date code n owned,
      In e' (e :: elements) /\
      transactionDate e' = Some (Some date) /\ transactionCode e' = Some (Some code) /\
      transactionShares e' = Some (Some n) /\
      sharesOwnedFollowingTransaction e' = Some (Some owned) /\
      t = build_transaction reportingOwnerName reportingOwnerTitle date code n owned).
  { intros H. destruct (IH H) as (e' & date & code & n & owned & Hin' & Hrest).
    exists e', date, code, n, owned. split; [now right | exact Hrest]. }
  destruct (complete_or_not e) as [Hskip | [Hraise | [Hc Hr]]].
  - rewrite parse_loop_skip in Hin by exact Hskip. now apply Hlater.
  - rewrite parse_loop_raise in Hin by exact Hraise. destruct Hin.
  - destruct (parse_loop_append e elements Hc Hr)
      as (date & code & n & owned & Hd & Hcode & Hn & Ho & Heq).
    rewrite Heq in Hin. destruct Hin as [<- | Hin]; [| now apply Hlater].
    exists e, date, code, n, owned. repeat split; auto. now left.
Qed.

(** X22. Every parsed record comes from one element of the filing: it
    carries that element's date and remaining ownership and the owner's name
    and title (or "Unknown"); for the codes S and F it is a "Sale" with the
    element's shares as [shares_sold] and nothing bought, for every other
    code a "Purchase" with the shares as [shares_bought] and nothing sold. *)
Theorem parsed_transaction_shape (elements : list Form4Transaction)
    (t : InsiderTransaction) :
  In t (parse_form4_transactions reportingOwnerName reportingOwnerTitle elements) ->
  insider_name t = default "Unknown" reportingOwnerName /\
  title t = default "Unknown" reportingOwnerTitle /\
  exists e code n,
    In e elements /\
    transactionCode e = Some (Some code) /\
    transactionShares e = Some (Some n) /\
    transactionDate e = Some (Some (transaction_date t)) /\
    sharesOwnedFollowingTransaction e = Some (Some (shares_owned_after t)) /\
    ((code = "S" \/ code = "F") /\ transaction_type t = "Sale" /\
       shares_sold t = n /\ shares_bought t = 0%Z
     \/
     (code <> "S" /\ code <> "F") /\ transaction_type t = "Purchase" /\
       shares_sold t = 0%Z /\ shares_bought t = n).
Proof.
  intros Hin. apply parsed_origin in Hin
    as (e & date & code & n & owned & Hin & Hd & Hcode & Hn & Ho & ->).
  split; [reflexivity |]. split; [reflexivity |].
  exists e, code, n. split; [exact Hin |].
  split; [exact Hcode |]. split; [exact Hn |].
  split; [exact Hd |]. split; [exact Ho |].
  cbn [build_transaction transaction_type shares_sold shares_bought]. cbv zeta.
  unfold is_sale_code.
  destruct (String.eqb_spec code "S") as [-> | HS]; [left; auto |].
  destruct (String.eqb_spec code "F") as [-> | HF]; [left; auto |].
  right. auto.
Qed.

(** X23. A value that fails to convert ends the parse silently: the result
    is what the elements before the first such element yield, and whatever
    follows it is dropped. *)
Theorem parse_stops_at_first_error (before after : list Form4Transaction)
    (bad : Form4Transaction) :
  Forall (fun e => raising e = false) before ->
  raising bad = true ->
  parse_form4_transactions reportingOwnerName reportingOwnerTitle
    (before ++ bad :: after) =
  parse_form4_transactions reportingOwnerName reportingOwnerTitle before.
Proof.
  unfold parse_form4_transactions. intros Hbefore Hbad.
  induction Hbefore as [| e before He Hbefore IH].
  - cbn [app]. now rewrite parse_loop_raise.
  - cbn [app]. destruct (complete_or_not e) as [Hskip | [Hraise | [Hc Hr]]].
    + now rewrite !parse_loop_skip.
    + congruence.
    + destruct (parse_loop_append e (before ++ bad :: after) Hc Hr)
        as (date & code & n & owned & Hd & Hcode & Hn & Ho & ->).
      destruct (parse_loop_append e before Hc Hr)
        as (date' & code' & n' & owned' & Hd' & Hcode' & Hn' & Ho' & ->).
      rewrite IH. congruence.
Qed.

(** X24. When no value fails to convert, the parse yields, in the order
    of the filing, exactly one record for each element that has all four
    parts, built from that element's date, code, shares and remaining
    ownership; the elements that lack a part are skipped. *)
Theorem parse_one_record_per_complete_element (elements : list Form4Transaction) :
  Forall (fun e => raising e = false) elements ->
  Forall2
    (fun e t =>
       exists date code n owned,
         transactionDate e = Some (Some date) /\
         transactionCode e = Some (Some code) /\
         transactionShares e = Some (Some n) /\
         sharesOwnedFollowingTransaction e = Some (Some owned) /\
         t = build_transaction reportingOwnerName reportingOwnerTitle date code n owned)
    (List.filter complete elements)
    (parse_form4_transactions reportingOwnerName reportingOwnerTitle elements).
Proof.
  unfold parse_form4_transactions. intros Hok.
  induction Hok as [| e elements He Hok IH]; [constructor |].
  cbn [List.filter]. destruct (complete_or_not e) as [Hskip | [Hraise | [Hc Hr]]].
  - rewrite parse_loop_skip, Hskip by exact Hskip. exact IH.
  - congruence.
  - destruct (parse_loop_append e elements Hc Hr)
      as (date & code & n & owned & Hd & Hcode & Hn & Ho & ->).
    rewrite Hc. constructor; [| exact IH].
    exists date, code, n, owned. repeat split; assumption.
Qed.

(** X25. A filing none of whose transactions has a sale code (S or F) never
    fires for a positive threshold: the detector returns [None] on what the
    parser yields. *)
Theorem purchases_never_fire (now : string) (elements : list Form4Transaction)
    (threshold : Q) :
  Forall (fun e => forall code, transactionCode e = Some (Some code) ->
                               is_sale_code code = false) elements ->
  0 < threshold ->
  detect_insider_selling_signal now
    (parse_form4_transactions reportingOwnerName reportingOwnerTitle elements) threshold
  = ok None.
Proof.
  intros Hcodes Hthr. apply detect_no_sales; [| exact Hthr].
  apply List.Forall_forall. intros t Hin.
  apply parsed_origin in Hin
    as (e & date & code & n & owned & Hin & _ & Hcode & _ & _ & ->).
  rewrite List.Forall_forall in Hcodes. specialize (Hcodes e Hin code Hcode).
  cbn [build_transaction shares_sold]. cbv zeta. now rewrite Hcodes.
Qed.

End ParseProperties.

Section ParseWitnesses.

Local Open Scope Q_scope.

(** A filing with a sale, an incomplete element, a purchase, then an
    element that fails to convert, then another sale. *)
Example parse_sample :
  parse_form4_transactions (Some "Jane Doe") None
    [form4_element "S" 500 1500; form4_incomplete; form4_element "P" 20 1520;
     form4_broken; form4_element "S" 1000 520] =
  [ {| insider_name := "Jane Doe"; title := "Unknown";
       transaction_date := "2025-01-15"; shares_sold := 500; shares_bought := 0;
       shares_owned_after := 1500; transaction_type := "Sale" |};
    {| insider_name := "Jane Doe"; title := "Unknown";
       transaction_date := "2025-01-15"; shares_sold := 0; shares_bought := 20;
       shares_owned_after := 1520; transaction_type := "Purchase" |} ].
Proof. reflexivity. Qed.

Lemma parsed_transaction_shape_witness :
  exists t,
    In t (parse_form4_transactions (Some "Jane Doe") None
            [form4_element "F" 500 1500]) /\
    insider_name t = default "Unknown" (Some "Jane Doe") /\
    title t = default "Unknown" None /\
    exists e code n,
      In e [form4_element "F" 500 1500] /\
      transactionCode e = Some (Some code) /\
      transactionShares e = Some (Some n) /\
      transactionDate e = Some (Some (transaction_date t)) /\
      sharesOwnedFollowingTransaction e = Some (Some (shares_owned_after t)) /\
      ((code = "S" \/ code = "F") /\ transaction_type t = "Sale" /\
         shares_sold t = n /\ shares_bought t = 0%Z
       \/
       (code <> "S" /\ code <> "F") /\ transaction_type t = "Purchase" /\
         shares_sold t = 0%Z /\ shares_bought t = n).
Proof.
  eexists.
  assert (Hin : In _ (parse_form4_transactions (Some "Jane Doe") None
                        [form4_element "F" 500 1500])) by (left; reflexivity).
  split; [exact Hin |].
  exact (parsed_transaction_shape (Some "Jane Doe") None [form4_element "F" 500 1500] _ Hin).
Defined.

Lemma parse_stops_at_first_error_witness :
  Forall (fun e => raising e = false) [form4_element "S" 500 1500; form4_incomplete] /\
  raising form4_broken = true /\
  parse_form4_transactions (Some "Jane Doe") None
    ([form4_element "S" 500 1500; form4_incomplete] ++
     form4_broken :: [form4_element "S" 1000 520]) =
  parse_form4_transactions (Some "Jane Doe") None
    [form4_element "S" 500 1500; form4_incomplete].
Proof.
  assert (H1 : Forall (fun e => raising e = false)
                 [form4_element "S" 500 1500; form4_incomplete])
    by (repeat constructor).
  assert (H2 : raising form4_broken = true) by reflexivity.
  split; [exact H1 |]. split; [exact H2 |].
  exact (parse_stops_at_first_error (Some "Jane Doe") None _ [form4_element "S" 1000 520]
           form4_broken H1 H2).
Defined.

Lemma parse_one_record_per_complete_element_witness :
  Forall (fun e => raising e = false)
    [form4_element "S" 500 1500; form4_incomplete; form4_element "P" 20 1520] /\
  Forall2
    (fun e t =>
       exists date code n owned,
         transactionDate e = Some (Some date) /\
         transactionCode e = Some (Some code) /\
         transactionShares e = Some (Some n) /\
         sharesOwnedFollowingTransaction e = Some (Some owned) /\
         t = build_transaction (Some "Jane Doe") None date code n owned)
    (List.filter complete
       [form4_element "S" 500 1500; form4_incomplete; form4_element "P" 20 1520])
    (parse_form4_transactions (Some "Jane Doe") None
       [form4_element "S" 500 1500; form4_incomplete; form4_element "P" 20 1520]).
Proof.
  assert (H1 : Forall (fun e => raising e = false)
                 [form4_element "S" 500 1500; form4_incomplete; form4_element "P" 20 1520])
    by (repeat constructor).
  split; [exact H1 |].
  exact (parse_one_record_per_complete_element (Some "Jane Doe") None _ H1).
Defined.

Lemma purchases_never_fire_witness :
  Forall (fun e => forall code, transactionCode e = Some (Some code) ->
                               is_sale_code code = false)
    [form4_element "P" 900 1000; form4_element "A" 50 1050] /\
  0 < 40 /\
  detect_insider_selling_signal "now"
    (parse_form4_transactions (Some "Jane Doe") (Some "CEO")
       [form4_element "P" 900 1000; form4_element "A" 50 1050]) 40
  = ok None.
Proof.
  assert (H1 : Forall (fun e => forall code, transactionCode e = Some (Some code) ->
                                             is_sale_code code = false)
                 [form4_element "P" 900 1000; form4_element "A" 50 1050]).
  { repeat constructor; intros code [= <-]; reflexivity. }
  assert (H2 : 0 < 40) by reflexivity.
  split; [exact H1 |]. split; [exact H2 |].
  exact (purchases_never_fire (Some "Jane Doe") (Some "CEO") "now" _ 40 H1 H2).
Defined.

End ParseWitnesses.
